(** * SubTracker: the subscription detection engine

    A shallow embedding of the two detection pipelines of the repository,

    - [src/emailParser.js], the module-level parser [parseSubscriptionEmail]
      (the file the class imports as ['../emailParser.js']),
    - [src/lib/email-parser.ts], the class [EmailSubscriptionParser],

    together with the part of the JavaScript runtime they rest on: strings
    of UTF-16 code units, regular expressions with backtracking (greedy,
    leftmost) matching, and IEEE-754 binary64 arithmetic for the
    confidence scores. *)

From Stdlib Require Import ZArith NArith String Ascii Floats Sorting Permutation.
From stdpp Require Import gmap list sorting.

Set Warnings "-inexact-float".

(* ================================================================== *)
(** ** JavaScript strings *)
(* ================================================================== *)

Module JsString.

(** A JavaScript string is a sequence of UTF-16 code units. *)
Definition code_unit := N.
Definition jsstring := list code_unit.

(** The code unit of an ASCII character. *)
Definition ch (a : ascii) : code_unit := N_of_ascii a.

(** Decoding of a source literal (UTF-8 in this file) into code units.
    Literals of the embedded programs stay inside the Basic Multilingual
    Plane, so one-, two- and three-byte sequences are decoded. *)
Fixpoint utf8 (bs : list N) : jsstring :=
  match bs with
  | [] => []
  | b0 :: t0 =>
      if (b0 <? 128)%N then b0 :: utf8 t0
      else match t0 with
           | [] => [b0]
           | b1 :: t1 =>
               if (b0 <? 224)%N
               then ((b0 - 192) * 64 + (b1 - 128))%N :: utf8 t1
               else match t1 with
                    | [] => [b0; b1]
                    | b2 :: t2 =>
                        ((b0 - 224) * 4096 + (b1 - 128) * 64 + (b2 - 128))%N
                          :: utf8 t2
                    end
           end
  end.

Definition js (s : string) : jsstring :=
  utf8 (List.map N_of_ascii (list_ascii_of_string s)).

Definition eqb (a b : jsstring) : bool := bool_decide (a = b).

Definition is_upper (c : code_unit) : bool := ((65 <=? c) && (c <=? 90))%N.
Definition is_lower (c : code_unit) : bool := ((97 <=? c) && (c <=? 122))%N.

(** Case mapping of one code unit.  Only Basic Latin letters are mapped;
    every other code unit is left as it is. *)
Definition lower1 (c : code_unit) : code_unit :=
  if is_upper c then (c + 32)%N else c.
Definition upper1 (c : code_unit) : code_unit :=
  if is_lower c then (c - 32)%N else c.

Definition toLowerCase (s : jsstring) : jsstring := List.map lower1 s.
Definition toUpperCase (s : jsstring) : jsstring := List.map upper1 s.

(** [s.charAt(0)] and [s.slice(1)]. *)
Definition charAt0 (s : jsstring) : jsstring := take 1 s.
Definition slice1 (s : jsstring) : jsstring := drop 1 s.

(** [s.substring(0, n)]. *)
Definition substring0 (n : nat) (s : jsstring) : jsstring := take n s.

(** [word.charAt(0).toUpperCase() + word.slice(1)]. *)
Definition capitalize (s : jsstring) : jsstring :=
  toUpperCase (charAt0 s) ++ slice1 s.

Fixpoint starts_with (p s : jsstring) : bool :=
  match p, s with
  | [], _ => true
  | _ :: _, [] => false
  | a :: p', b :: s' => (a =? b)%N && starts_with p' s'
  end.

(** [s.includes(p)]. *)
Fixpoint includes (s p : jsstring) : bool :=
  starts_with p s ||
  match s with
  | [] => false
  | _ :: s' => includes s' p
  end.

(** [s.split(c)] for a one-character separator [c]: never empty. *)
Fixpoint split_on (c : code_unit) (s : jsstring) : list jsstring :=
  match s with
  | [] => [[]]
  | x :: t =>
      if (x =? c)%N then [] :: split_on c t
      else match split_on c t with
           | [] => [[x]]
           | w :: ws => (x :: w) :: ws
           end
  end.

(** White space and line terminators, the characters of [\s] and of
    [String.prototype.trim]. *)
Definition is_space (c : code_unit) : bool :=
  ((9 <=? c) && (c <=? 13) || (c =? 32) || (c =? 160) || (c =? 5760)
   || (8192 <=? c) && (c <=? 8202) || (c =? 8232) || (c =? 8233)
   || (c =? 8239) || (c =? 8287) || (c =? 12288) || (c =? 65279))%N.

(** Line terminators, the characters [.] does not match. *)
Definition is_line_terminator (c : code_unit) : bool :=
  ((c =? 10) || (c =? 13) || (c =? 8232) || (c =? 8233))%N.

Fixpoint trim_start (s : jsstring) : jsstring :=
  match s with
  | c :: t => if is_space c then trim_start t else s
  | [] => []
  end.

Definition trim (s : jsstring) : jsstring :=
  rev (trim_start (rev (trim_start s))).

Definition is_digit (c : code_unit) : bool := ((48 <=? c) && (c <=? 57))%N.

(** The JavaScript truth value of a string: the empty string is falsy. *)
Definition truthy (s : jsstring) : bool :=
  match s with [] => false | _ => true end.

End JsString.

Import JsString.

(* ================================================================== *)
(** ** Regular expressions *)
(* ================================================================== *)

Module Regex.

(** One member of a character class [[...]]. *)
Inductive citem :=
| CRange (lo hi : code_unit)    (* a-z, or a single character *)
| CSpace                        (* \s *)
| CDigit.                       (* \d *)

(** The syntax of the patterns the two parsers use. *)
Inductive regex :=
| Lit (c : code_unit)                        (* a character *)
| Dot                                        (* . *)
| Cls (negated : bool) (items : list citem)  (* [...] and [^...] *)
| Cat (r1 r2 : regex)                        (* r1 r2 *)
| Or (r1 r2 : regex)                         (* r1|r2 *)
| Quant (r : regex) (lo : nat) (hi : option nat)  (* r{lo,hi}, greedy *)
| Cap (r : regex)                            (* (r), a capturing group *)
| Bol                                        (* ^ *)
| Eol                                        (* $ *)
| Empty                                      (* the empty pattern *)
| Never.                                     (* matches nothing *)

(** *** Reading a pattern from its source text *)

Definition isc (x : code_unit) (a : ascii) : bool := (x =? ch a)%N.

Fixpoint read_nat (acc : nat) (s : jsstring) : nat * jsstring :=
  match s with
  | c :: t => if is_digit c
              then read_nat (10 * acc + N.to_nat (c - 48)) t
              else (acc, s)
  | [] => (acc, [])
  end.

(** A quantifier, when one follows the atom [a]. *)
Definition read_quant (a : regex) (s : jsstring) : regex * jsstring :=
  match s with
  | c :: t =>
      if isc c "*" then (Quant a 0 None, t)
      else if isc c "+" then (Quant a 1 None, t)
      else if isc c "?" then (Quant a 0 (Some 1), t)
      else if isc c "{" then
        let '(lo, t1) := read_nat 0 t in
        match t1 with
        | d :: t2 =>
            if isc d "}" then (Quant a lo (Some lo), t2)
            else if isc d "," then
              match t2 with
              | e :: t3 =>
                  if isc e "}" then (Quant a lo None, t3)
                  else let '(hi, t4) := read_nat 0 t2 in
                       match t4 with
                       | f :: t5 => if isc f "}" then (Quant a lo (Some hi), t5)
                                    else (a, s)
                       | [] => (a, s)
                       end
              | [] => (a, s)
              end
            else (a, s)
        | [] => (a, s)
        end
      else (a, s)
  | [] => (a, s)
  end.

(** The atom of an escape [\c]. *)
Definition read_escape (c : code_unit) : regex :=
  if isc c "d" then Cls false [CDigit]
  else if isc c "s" then Cls false [CSpace]
  else Lit c.

(** The members of a class, up to the closing bracket. *)
Fixpoint read_class (fuel : nat) (s : jsstring) : option (list citem * jsstring) :=
  match fuel with
  | O => None
  | S f =>
      match s with
      | [] => None
      | c :: t =>
          if isc c "]" then Some ([], t)
          else if isc c "\" then
            match t with
            | e :: t' =>
                let it := if isc e "s" then CSpace
                          else if isc e "d" then CDigit
                          else CRange e e in
                '(its, r) ← read_class f t'; Some (it :: its, r)
            | [] => None
            end
          else
            match t with
            | d :: hi :: t' =>
                if isc d "-" && negb (isc hi "]")
                then '(its, r) ← read_class f t'; Some (CRange c hi :: its, r)
                else '(its, r) ← read_class f t; Some (CRange c c :: its, r)
            | _ => '(its, r) ← read_class f t; Some (CRange c c :: its, r)
            end
      end
  end.

Definition cat (a b : regex) : regex :=
  match b with Empty => a | _ => Cat a b end.

(** Recursive descent: a disjunction is alternatives separated by [|], an
    alternative a sequence of quantified atoms. *)
Fixpoint read_disj (fuel : nat) (s : jsstring) : option (regex * jsstring) :=
  match fuel with
  | O => None
  | S f =>
      '(r1, t) ← read_alt f s;
      match t with
      | c :: t' =>
          if isc c "|" then '(r2, t'') ← read_disj f t'; Some (Or r1 r2, t'')
          else Some (r1, t)
      | [] => Some (r1, t)
      end
  end
with read_alt (fuel : nat) (s : jsstring) : option (regex * jsstring) :=
  match fuel with
  | O => None
  | S f =>
      match s with
      | [] => Some (Empty, [])
      | c :: _ =>
          if isc c "|" || isc c ")" then Some (Empty, s)
          else
            '(a, t) ← read_atom f s;
            let '(q, t') := read_quant a t in
            '(r, t'') ← read_alt f t';
            Some (cat q r, t'')
      end
  end
with read_atom (fuel : nat) (s : jsstring) : option (regex * jsstring) :=
  match fuel with
  | O => None
  | S f =>
      match s with
      | [] => None
      | c :: t =>
          if isc c "(" then
            match t with
            | q :: k :: t' =>
                if isc q "?" && isc k ":" then
                  '(r, t'') ← read_disj f t';
                  match t'' with
                  | e :: t3 => if isc e ")" then Some (r, t3) else None
                  | [] => None
                  end
                else
                  '(r, t'') ← read_disj f t;
                  match t'' with
                  | e :: t3 => if isc e ")" then Some (Cap r, t3) else None
                  | [] => None
                  end
            | _ => None
            end
          else if isc c "[" then
            match t with
            | n :: t' =>
                if isc n "^"
                then '(its, r) ← read_class f t'; Some (Cls true its, r)
                else '(its, r) ← read_class f t; Some (Cls false its, r)
            | [] => None
            end
          else if isc c "\" then
            match t with
            | e :: t' => Some (read_escape e, t')
            | [] => None
            end
          else if isc c "." then Some (Dot, t)
          else if isc c "^" then Some (Bol, t)
          else if isc c "$" then Some (Eol, t)
          else Some (Lit c, t)
      end
  end.

Definition parse (src : jsstring) : option regex :=
  match read_disj (3 * length src + 3) src with
  | Some (r, []) => Some r
  | _ => None
  end.

(** A regular expression object: its source text, its flags and the
    pattern read from the source. *)
Record RegExp := {
  source : jsstring;
  ignoreCase : bool;
  global : bool;
  ast : regex
}.

(** The literal [/src/flags]. *)
Definition re (src : string) (flags : string) : RegExp :=
  {| source := js src;
     ignoreCase := includes (js flags) (js "i");
     global := includes (js flags) (js "g");
     ast := default Never (parse (js src)) |}.

Definition well_formed (p : RegExp) : bool :=
  match parse (source p) with Some _ => true | None => false end.

(** *** Matching *)

(** A point of a match in progress: the position in the subject, what the
    capturing group holds, and the text still to read. *)
Record mstate := {
  pos : nat;
  group1 : option jsstring;
  rest : jsstring
}.

Definition advance (st : mstate) (t : jsstring) : mstate :=
  {| pos := S (pos st); group1 := group1 st; rest := t |}.

(** Character comparison; under the flag [i] both sides are brought to
    upper case (canonicalization never maps a character outside Basic
    Latin into it, so the ASCII mapping is all there is for the patterns
    here, whose letters are ASCII). *)
Definition chr_match (ic : bool) (c x : code_unit) : bool :=
  if ic then (upper1 c =? upper1 x)%N else (c =? x)%N.

Definition item_has (it : citem) (x : code_unit) : bool :=
  match it with
  | CRange lo hi => ((lo <=? x) && (x <=? hi))%N
  | CSpace => is_space x
  | CDigit => is_digit x
  end.

Definition item_match (ic : bool) (it : citem) (x : code_unit) : bool :=
  item_has it x || (ic && (item_has it (upper1 x) || item_has it (lower1 x))).

Definition one (st : mstate) (ok : code_unit -> bool) : list mstate :=
  match rest st with
  | x :: t => if ok x then [advance st t] else []
  | [] => []
  end.

Section Repeat.
Variable step : mstate -> list mstate.

(** Greedy repetition: one more round of [step] is tried before
    stopping, and a round has to consume input. *)
Fixpoint repeat (fuel lo : nat) (hi : option nat) (st : mstate) : list mstate :=
  match fuel with
  | O => if decide (lo = 0) then [st] else []
  | S f =>
      (if decide (hi = Some 0) then []
       else flat_map
              (fun st' =>
                 if decide (length (rest st') < length (rest st))
                 then repeat f (pred lo) (pred <$> hi) st'
                 else [])
              (step st))
      ++ (if decide (lo = 0) then [st] else [])
  end.
End Repeat.

(** All the ways [r] matches at [st], in the order backtracking tries
    them: the head is the match the engine reports. *)
Fixpoint run (ic : bool) (r : regex) (st : mstate) : list mstate :=
  match r with
  | Lit c => one st (chr_match ic c)
  | Dot => one st (fun x => negb (is_line_terminator x))
  | Cls neg items =>
      one st (fun x => xorb neg (existsb (fun it => item_match ic it x) items))
  | Cat r1 r2 => flat_map (run ic r2) (run ic r1 st)
  | Or r1 r2 => run ic r1 st ++ run ic r2 st
  | Quant r' lo hi => repeat (run ic r') (S (length (rest st))) lo hi st
  | Cap r' =>
      List.map
        (fun st' =>
           {| pos := pos st';
              group1 := Some (take (pos st' - pos st) (rest st));
              rest := rest st' |})
        (run ic r' st)
  | Bol => if decide (pos st = 0) then [st] else []
  | Eol => match rest st with [] => [st] | _ => [] end
  | Empty => [st]
  | Never => []
  end.

(** The result of a successful match: [m.index], [m[0]], [m[1]] and the
    text after the match. *)
Record MatchResult := {
  index : nat;
  matched : jsstring;
  capture : option jsstring;
  after : jsstring
}.

Definition match_at (p : RegExp) (i : nat) (s : jsstring) : option MatchResult :=
  match run (ignoreCase p) (ast p) {| pos := i; group1 := None; rest := s |} with
  | st :: _ =>
      Some {| index := i; matched := take (pos st - i) s;
              capture := group1 st; after := rest st |}
  | [] => None
  end.

(** The leftmost match at or after position [i], [s] being the subject
    from [i] on. *)
Fixpoint search_from (p : RegExp) (i : nat) (s : jsstring) : option MatchResult :=
  match match_at p i s with
  | Some m => Some m
  | None => match s with
            | [] => None
            | _ :: t => search_from p (S i) t
            end
  end.

(** [s.match(p)] for a pattern without the flag [g], and the first step
    of [p.exec(s)] for one with it. *)
Definition search (p : RegExp) (s : jsstring) : option MatchResult :=
  search_from p 0 s.

(** [p.test(s)]. *)
Definition test (p : RegExp) (s : jsstring) : bool :=
  match search p s with Some _ => true | None => false end.

(** The loop [while ((m = p.exec(s)) !== null)] over a pattern with the
    flag [g]: every match, each search starting where the last match
    ended.  The loop leaves [lastIndex] at 0, so no state outlives it.
    (An empty match would stop the search here and hold the loop of the
    source for ever; no pattern with the flag [g] matches the empty
    string.) *)
Fixpoint exec_all (fuel : nat) (p : RegExp) (i : nat) (s : jsstring)
  : list MatchResult :=
  match fuel with
  | O => []
  | S f =>
      match search_from p i s with
      | Some m =>
          if decide (length (after m) < length s)
          then m :: exec_all f p (index m + length (matched m)) (after m)
          else [m]
      | None => []
      end
  end.

Definition matches (p : RegExp) (s : jsstring) : list MatchResult :=
  exec_all (S (length s)) p 0 s.

(** [s.replace(p, '')] for a pattern without the flag [g]. *)
Definition remove_first (p : RegExp) (s : jsstring) : jsstring :=
  match search p s with
  | Some m => take (index m) s ++ after m
  | None => s
  end.

(** The pattern has no [^] and no [$]. *)
Fixpoint anchor_free (r : regex) : bool :=
  match r with
  | Bol | Eol => false
  | Cat r1 r2 | Or r1 r2 => anchor_free r1 && anchor_free r2
  | Quant r' _ _ | Cap r' => anchor_free r'
  | _ => true
  end.

(** [s.split(p)]: the pieces of [s] between the non-empty matches of
    [p]; [piece] is the current piece, read so far, in reverse. *)
Fixpoint split_loop (fuel : nat) (p : RegExp) (i : nat) (piece s : jsstring)
  : list jsstring :=
  match fuel with
  | O => [rev piece ++ s]
  | S f =>
      match s with
      | [] => [rev piece]
      | x :: t =>
          match match_at p i s with
          | Some m =>
              if decide (length (after m) < length s)
              then rev piece
                     :: split_loop f p (i + length (matched m)) [] (after m)
              else split_loop f p (S i) (x :: piece) t
          | None => split_loop f p (S i) (x :: piece) t
          end
      end
  end.

Definition split_re (p : RegExp) (s : jsstring) : list jsstring :=
  match s with
  | [] => match match_at p 0 [] with Some _ => [] | None => [[]] end
  | _ => split_loop (S (length s)) p 0 [] s
  end.

End Regex.

Import Regex.

(* ================================================================== *)
(** ** Numbers, dates and the date library *)
(* ================================================================== *)

Module JsNumber.

(** Scores are binary64 numbers, as in JavaScript. *)
Definition number := float.

(** [Math.min(x, y)]. *)
Definition math_min (x y : number) : number :=
  if PrimFloat.is_nan x || PrimFloat.is_nan y then PrimFloat.nan
  else if PrimFloat.ltb x y then x else y.

(** The number [k] of a count. *)
Definition of_nat (k : nat) : number :=
  PrimFloat.of_uint63 (Uint63.of_Z (Z.of_nat k)).

Definition le (x y : number) : Prop := PrimFloat.leb x y = true.
Arguments le (x y)%_float_scope.

(** A money amount, in hundredths.  The amount patterns capture
    [\d+(?:\.\d{2})?], a decimal with no or two fraction digits, and
    [parseFloat] returns the binary64 nearest to it; between 0 and 10000
    distinct decimals of this shape have distinct, equally ordered
    nearest binary64 values, so the comparisons, the sort and the
    frequency table of the source act on the hundredths as they do on
    the numbers. *)
Definition amount := N.

Fixpoint digits_value (acc : N) (s : jsstring) : N * jsstring :=
  match s with
  | c :: t => if is_digit c then digits_value (10 * acc + (c - 48)) t
              else (acc, s)
  | [] => (acc, [])
  end.

(** [parseFloat(s)] on a captured amount; [None] is [NaN]. *)
Definition parseFloat (s : jsstring) : option amount :=
  match s with
  | c :: _ =>
      if is_digit c then
        let '(whole, t) := digits_value 0 s in
        match t with
        | dot :: d1 :: d2 :: _ =>
            if (dot =? ch ".")%N && is_digit d1 && is_digit d2
            then Some (whole * 100 + (d1 - 48) * 10 + (d2 - 48))%N
            else if (dot =? ch ".")%N && is_digit d1
                 then Some (whole * 100 + (d1 - 48) * 10)%N
                 else Some (whole * 100)%N
        | [dot; d1] =>
            if (dot =? ch ".")%N && is_digit d1
            then Some (whole * 100 + (d1 - 48) * 10)%N
            else Some (whole * 100)%N
        | _ => Some (whole * 100)%N
        end
      else None
  | [] => None
  end.

(** A point in time, as [Date.prototype.getTime] gives it: milliseconds
    since the epoch. *)
Definition timestamp := Z.

End JsNumber.

Import JsNumber.

(** The natural-language date parser, [chrono-node], is a dependency of the
    repository, not part of it: the parsers are embedded over any
    implementation of its one entry point they call. *)
Module Chrono.

(** One result of [chrono.parse]: [d.date()], [d.text], and whether
    [d.tags] is set. *)
Record ParsedResult := {
  result_date : timestamp;
  result_text : jsstring;
  result_tags : bool
}.

Class DateParser := { parse : jsstring -> list ParsedResult }.

End Chrono.

(* ================================================================== *)
(** ** [src/emailParser.js]: the module-level parser *)
(* ================================================================== *)

Module EmailParserJs.

Import Chrono.

(** What a call can throw. *)
Inductive exn :=
| InvalidEmailObject   (* Error('Invalid email object: must have subject or body') *)
| TypeError.           (* a method called on [undefined] *)

Definition result (A : Type) : Type := exn + A.
Definition ok {A} (a : A) : result A := inr a.
Definition throw {A} (e : exn) : result A := inl e.
Definition bind {A B} (r : result A) (k : A -> result B) : result B :=
  match r with inl e => inl e | inr a => k a end.

(** The keys of [SUBSCRIPTION_PATTERNS], and ['unknown']. *)
Inductive EmailType :=
| trialStart | trialEnd | billing | cancellation | priceChange | unknown.

#[global] Instance EmailType_eq_dec : EqDecision EmailType.
Proof. solve_decision. Defined.

Definition SUBSCRIPTION_PATTERNS : list (EmailType * list RegExp) := [
  (trialStart, [
    re "trial.{0,20}(starts?|begins?|activated|live)" "i";
    re "free.{0,20}trial.{0,20}(starts?|begins?)" "i";
    re "(\d+)[-\s]?days?.{0,20}free" "i";
    re "start.{0,20}your.{0,20}trial" "i"
  ]);
  (trialEnd, [
    re "trial.{0,20}(ends?|expires?|expiring|ending)" "i";
    re "trial.{0,20}will.{0,20}(end|expire)" "i";
    re "(\d+).{0,20}days?.{0,20}left.{0,20}trial" "i";
    re "trial.{0,20}period.{0,20}(ends?|expires?)" "i"
  ]);
  (billing, [
    re "bill(?:ing)?.{0,20}(date|cycle|period)" "i";
    re "next.{0,20}(payment|charge|bill)" "i";
    re "subscription.{0,20}renew" "i";
    re "auto[-\s]?renew" "i";
    re "recurring.{0,20}(payment|charge)" "i"
  ]);
  (cancellation, [
    re "subscription.{0,20}(cancelled?|terminated)" "i";
    re "cancelled?.{0,20}your.{0,20}subscription" "i";
    re "no.{0,20}longer.{0,20}subscribed" "i";
    re "membership.{0,20}(cancelled?|ended)" "i"
  ]);
  (priceChange, [
    re "price.{0,20}(change|increase|update)" "i";
    re "new.{0,20}pricing" "i";
    re "rate.{0,20}(change|increase)" "i";
    re "billing.{0,20}amount.{0,20}(change|update)" "i"
  ])
].

Definition AMOUNT_PATTERNS : list RegExp := [
  re "\$\s*(\d+(?:\.\d{2})?)" "g";
  re "USD\s*(\d+(?:\.\d{2})?)" "gi";
  re "(\d+(?:\.\d{2})?)\s*USD" "gi";
  re "€\s*(\d+(?:\.\d{2})?)" "g";
  re "£\s*(\d+(?:\.\d{2})?)" "g"
].

Definition SERVICE_NAME_PATTERNS : list RegExp := [
  re "thank\s+you\s+for\s+(?:subscribing|signing\s+up)\s+(?:to|for)\s+([A-Za-z0-9\s]+)" "i";
  re "your\s+([A-Za-z0-9\s]+)\s+(?:subscription|membership|account)" "i";
  re "welcome\s+to\s+([A-Za-z0-9\s]+)" "i"
].

(** The email object.  The module is untyped: a field may be missing
    ([undefined]), and the code tests for that.  The date, an ISO string
    or a [Date] in the source, is held as the time it denotes. *)
Record Email := {
  from : option jsstring;
  subject : option jsstring;
  body : option jsstring;
  date : option timestamp
}.

(** A field inside a string concatenation. *)
Definition str (o : option jsstring) : jsstring := default (js "undefined") o.

(** [!field]: missing or empty. *)
Definition falsy (o : option jsstring) : bool :=
  match o with Some (_ :: _) => false | _ => true end.

(** [email.subject + ' ' + email.body]. *)
Definition content_of (email : Email) : jsstring :=
  str (subject email) ++ js " " ++ str (body email).

Definition detectEmailType (emailContent : Email) : EmailType :=
  let content := content_of emailContent in
  let fix entries (l : list (EmailType * list RegExp)) : EmailType :=
    match l with
    | [] => unknown
    | (type, patterns) :: l' =>
        if existsb (fun pattern => test pattern content) patterns
        then type
        else entries l'
    end in
  entries SUBSCRIPTION_PATTERNS.

Definition genericDomains : list jsstring :=
  List.map js ["gmail"; "yahoo"; "outlook"; "hotmail"; "mail"; "email";
               "noreply"; "no-reply"]%string.

(** [list.includes(x)] on an array of strings. *)
Definition array_includes (l : list jsstring) (x : jsstring) : bool :=
  existsb (JsString.eqb x) l.

Definition extractFromDomain (emailAddress : option jsstring) : jsstring :=
  match emailAddress with
  | None | Some [] => js "unknown"
  | Some address =>
      match search (re "@([^.]+)" "") address with
      | None => js "unknown"
      | Some m =>
          let domain := toLowerCase (default [] (capture m)) in
          if array_includes genericDomains domain then
            match search (re "@(.+)$" "") address with
            | Some fullDomainMatch =>
                let parts := split_on (ch ".") (default [] (capture fullDomainMatch)) in
                match List.find
                        (fun part =>
                           negb (array_includes genericDomains (toLowerCase part))
                           && (2 <? length part))
                        parts with
                | Some part => capitalize part
                | None => js "unknown"
                end
            | None => js "unknown"
            end
          else capitalize domain
      end
  end.

(** The first pattern with a match whose group is not empty. *)
Fixpoint first_capture (patterns : list RegExp) (content : jsstring)
  : option jsstring :=
  match patterns with
  | [] => None
  | pattern :: rest =>
      match search pattern content with
      | Some m =>
          match capture m with
          | Some (c :: g) => Some (trim (c :: g))
          | _ => first_capture rest content
          end
      | None => first_capture rest content
      end
  end.

Definition extractServiceName (email : Email) : result jsstring :=
  let content := content_of email in
  match first_capture SERVICE_NAME_PATTERNS content with
  | Some name => ok name
  | None =>
      let domain := extractFromDomain (from email) in
      if truthy domain && negb (JsString.eqb domain (js "unknown")) then ok domain
      else
        match subject email with
        | None => throw TypeError
        | Some subj =>
            let subjectWords := split_re (re "\s+" "") subj in
            match List.find
                    (fun word => (3 <? length word)
                                 && test (re "^[A-Z]" "") word)
                    subjectWords with
            | Some word => ok word
            | None => ok (js "Unknown Service")
            end
        end
  end.

(** The pattern of the text around the end of a trial, in
    [extractTrialEndDate]. *)
Definition trial_end_section : RegExp :=
  re "trial.{0,100}(end|expire).{0,100}" "gi".

(** One entry of [extractDates]. *)
Record ExtractedDate := {
  ed_date : timestamp;
  ed_text : jsstring;
  ed_confidence : number
}.

Section WithDateParser.
Context `{chrono : DateParser}.

Definition extractDates (content : jsstring) : list ExtractedDate :=
  List.map
    (fun d => {| ed_date := result_date d;
                 ed_text := result_text d;
                 ed_confidence := if result_tags d then 1.0%float else 0.8%float |})
    (parse content).

(** [now] is what [Date.now()] reads. *)
Definition extractTrialEndDate (now : timestamp) (email : Email)
  : option timestamp :=
  let content := content_of email in
  let trialEndSection := matches trial_end_section content in
  let fromSection :=
    match trialEndSection with
    | section :: _ =>
        match extractDates (matched section) with
        | d :: _ => Some (ed_date d)
        | [] => None
        end
    | [] => None
    end in
  match fromSection with
  | Some d => Some d
  | None =>
      let allDates := extractDates content in
      let emailDate := default now (date email) in
      let futureDates :=
        List.filter (fun d => (emailDate <? ed_date d)%Z) allDates in
      match futureDates with
      | d :: _ => Some (ed_date d)
      | [] => None
      end
  end.

(** [amount > 0 && amount < 10000], on hundredths. *)
Definition in_range (a : amount) : bool := ((0 <? a) && (a <? 1000000))%N.

(** The amounts one pattern finds: the [while]/[exec] loop. *)
Definition pattern_amounts (pattern : RegExp) (content : jsstring) : list amount :=
  omap (fun m =>
          match parseFloat (default [] (capture m)) with
          | Some a => if in_range a then Some a else None
          | None => None
          end)
       (matches pattern content).

(** The state of the loop of [findMode]. *)
Record ModeState := {
  frequency : gmap amount nat;
  maxFreq : nat;
  mode : option amount
}.

Definition findMode_step (st : ModeState) (num : amount) : ModeState :=
  let f := S (default 0 (frequency st !! num)) in
  let frequency' := <[num := f]> (frequency st) in
  if decide (maxFreq st < f)
  then {| frequency := frequency'; maxFreq := f; mode := Some num |}
  else {| frequency := frequency'; maxFreq := maxFreq st; mode := mode st |}.

Definition findMode_loop (numbers : list amount) : ModeState :=
  foldl findMode_step {| frequency := ∅; maxFreq := 0; mode := None |} numbers.

Definition findMode (numbers : list amount) : option amount :=
  let st := findMode_loop numbers in
  if decide (1 < maxFreq st) then mode st else None.

(** [amounts.sort((a, b) => a - b)]. *)
Definition sort_ascending (amounts : list amount) : list amount :=
  merge_sort N.le amounts.

(** [[...new Set(amounts)]]: the distinct values, each at its first
    occurrence. *)
Definition unique (amounts : list amount) : list amount :=
  foldl (fun seen a => if decide (a ∈ seen) then seen else seen ++ [a]) [] amounts.

(** The amounts found in the content, before sorting. *)
Definition found_amounts (email : Email) : list amount :=
  let content := content_of email in
  flat_map (fun pattern => pattern_amounts pattern content) AMOUNT_PATTERNS.

Definition extractAmount (email : Email) : option amount :=
  let amounts := found_amounts email in
  match amounts with
  | [] => None
  | _ =>
      let amounts := sort_ascending amounts in
      let uniqueAmounts := unique amounts in
      match uniqueAmounts with
      | [a] => Some a
      | _ =>
          match findMode amounts with
          | Some m => if (m =? 0)%N then amounts !! (length amounts / 2) else Some m
          | None => amounts !! (length amounts / 2)
          end
      end
  end.

Definition countPatternMatches (email : Email) : nat :=
  let content := content_of email in
  foldl (fun matches '(_, patterns) =>
           foldl (fun matches pattern =>
                    if test pattern content then S matches else matches)
                 matches patterns)
        0 SUBSCRIPTION_PATTERNS.

Record ExtractedData := {
  type : EmailType;
  serviceName : jsstring;
  trialEndDate : option timestamp;
  billingAmount : option amount
}.

(** The truth value of [extractedData.billingAmount]: [null] and 0 are
    falsy. *)
Definition amount_truthy (a : option amount) : bool :=
  match a with Some x => negb (x =? 0)%N | None => false end.

Definition calculateConfidence (email : Email) (extractedData : ExtractedData)
  : number :=
  let confidence := 0%float in
  let factors := 0 in
  let '(confidence, factors) :=
    if bool_decide (type extractedData <> unknown)
    then ((confidence + 0.3)%float, S factors) else (confidence, factors) in
  let '(confidence, factors) :=
    if negb (JsString.eqb (serviceName extractedData) (js "Unknown Service"))
    then ((confidence + 0.2)%float, S factors) else (confidence, factors) in
  let '(confidence, factors) :=
    if bool_decide (is_Some (trialEndDate extractedData))
    then ((confidence + 0.2)%float, S factors) else (confidence, factors) in
  let '(confidence, factors) :=
    if amount_truthy (billingAmount extractedData)
    then ((confidence + 0.2)%float, S factors) else (confidence, factors) in
  let hasMultiplePatternMatches := 2 <? countPatternMatches email in
  let '(confidence, factors) :=
    if hasMultiplePatternMatches
    then ((confidence + 0.1)%float, S factors) else (confidence, factors) in
  if 0 <? factors then confidence else 0%float.

Record Metadata := {
  emailDate : timestamp;
  meta_from : option jsstring;
  meta_subject : option jsstring
}.

Record Parsed := {
  data : ExtractedData;
  confidence : number;
  metadata : Metadata
}.

Definition parseSubscriptionEmail (now : timestamp) (email : Email)
  : result Parsed :=
  if falsy (subject email) && falsy (body email)
  then throw InvalidEmailObject
  else
    let type := detectEmailType email in
    bind (extractServiceName email) (fun serviceName =>
    let trialEndDate := extractTrialEndDate now email in
    let billingAmount := extractAmount email in
    let extractedData :=
      {| type := type; serviceName := serviceName;
         trialEndDate := trialEndDate; billingAmount := billingAmount |} in
    let confidence := calculateConfidence email extractedData in
    ok {| data := extractedData;
          confidence := confidence;
          metadata := {| emailDate := default now (date email);
                         meta_from := from email;
                         meta_subject := subject email |} |}).

(** One entry of the array [parseMultipleEmails] returns. *)
Inductive Outcome :=
| Success (data : Parsed)
| Failure (error : exn) (email : Email).

Definition parseMultipleEmails (now : timestamp) (emails : list Email)
  : list Outcome :=
  List.map
    (fun email =>
       match parseSubscriptionEmail now email with
       | inr data => Success data
       | inl error => Failure error email
       end)
    emails.

End WithDateParser.

End EmailParserJs.

(* ================================================================== *)
(** ** [src/lib/email-parser.ts]: the class [EmailSubscriptionParser] *)
(* ================================================================== *)

Module EmailSubscriptionParser.

Import Chrono.

Record EmailData := {
  from : jsstring;
  to : jsstring;
  subject : jsstring;
  bodyText : option jsstring;
  bodyHtml : option jsstring;
  receivedAt : timestamp;
  messageId : option jsstring;
  headers : list (jsstring * jsstring)
}.

Inductive DetectionType :=
| trial_signup
| trial_reminder
| billing_confirmation
| subscription_start
| price_change.

#[global] Instance DetectionType_eq_dec : EqDecision DetectionType.
Proof. solve_decision. Defined.

Record DetectedSubscription := {
  serviceName : jsstring;
  detectionType : DetectionType;
  confidence : number;
  cost : option amount;
  currency : option jsstring;
  billingCycle : option jsstring;
  trialEndDate : option timestamp;
  nextBillingDate : option timestamp;
  extractedData : jsstring          (* { rawContent } *)
}.

Definition TRIAL_SIGNUP_PATTERNS : list RegExp := [
  re "welcome.*trial" "i";
  re "trial.*started" "i";
  re "free.*trial.*activated" "i";
  re "trial.*period.*begins" "i";
  re "start.*your.*trial" "i";
  re "trial.*subscription.*created" "i";
  re "(\d+)[-\s]*days?.*free" "i"
].

Definition TRIAL_REMINDER_PATTERNS : list RegExp := [
  re "trial.*end(?:s|ing)" "i";
  re "trial.*expir(?:es|ing)" "i";
  re "(\d+).*days?.*left.*trial" "i";
  re "trial.*will.*end" "i";
  re "subscription.*will.*begin" "i";
  re "trial.*period.*ending" "i"
].

Definition BILLING_CONFIRMATION_PATTERNS : list RegExp := [
  re "payment.*successful" "i";
  re "subscription.*renewed" "i";
  re "billing.*confirmation" "i";
  re "receipt.*for.*subscription" "i";
  re "charged.*for.*subscription" "i";
  re "payment.*processed" "i";
  re "invoice.*for.*subscription" "i"
].

Definition SUBSCRIPTION_START_PATTERNS : list RegExp := [
  re "subscription.*activated" "i";
  re "welcome.*subscriber" "i";
  re "subscription.*started" "i";
  re "membership.*activated" "i";
  re "account.*upgraded" "i";
  re "premium.*activated" "i"
].

Definition PRICE_CHANGE_PATTERNS : list RegExp := [
  re "price.*change" "i";
  re "pricing.*update" "i";
  re "subscription.*cost.*chang" "i";
  re "new.*pricing" "i";
  re "rate.*increase" "i";
  re "billing.*amount.*chang" "i"
].

Definition SPAM_PATTERNS : list RegExp := [
  re "unsubscribe.*here" "i";
  re "click.*here.*now" "i";
  re "limited.*time.*offer" "i";
  re "act.*now" "i";
  re "congratulations.*you.*won" "i";
  re "claim.*your.*prize" "i"
].

Definition COMMON_SUBSCRIPTION_SERVICES : list jsstring :=
  List.map js [
    "netflix"; "spotify"; "amazon"; "apple"; "google"; "microsoft"; "adobe";
    "dropbox"; "slack"; "zoom"; "salesforce"; "hubspot"; "mailchimp";
    "canva"; "figma"; "notion"; "airtable"; "calendly"; "loom"; "discord";
    "twitch"; "youtube"; "hulu"; "disney"; "hbo"; "paramount"; "peacock";
    "github"; "gitlab"; "vercel"; "netlify"; "heroku"; "digitalocean"
  ]%string.

(** The pattern set of a detection type. *)
Definition patterns_of (t : DetectionType) : list RegExp :=
  match t with
  | trial_signup => TRIAL_SIGNUP_PATTERNS
  | trial_reminder => TRIAL_REMINDER_PATTERNS
  | billing_confirmation => BILLING_CONFIRMATION_PATTERNS
  | subscription_start => SUBSCRIPTION_START_PATTERNS
  | price_change => PRICE_CHANGE_PATTERNS
  end.

(** [`${subject} ${bodyText || ''} ${bodyHtml || ''}`]. *)
Definition getEmailContent (emailData : EmailData) : jsstring :=
  subject emailData ++ js " " ++ default [] (bodyText emailData)
    ++ js " " ++ default [] (bodyHtml emailData).

(** [from.split('@')[1]]. *)
Definition sender_domain (from : jsstring) : option jsstring :=
  split_on (ch "@") from !! 1.

Definition isSpamEmail (content : jsstring) (from : jsstring) : bool :=
  if existsb (fun pattern => test pattern content) SPAM_PATTERNS then true
  else
    let suspiciousDomains := List.map js ["tempmail"; "guerrillamail"; "10minutemail"]%string in
    let domain := toLowerCase <$> sender_domain from in
    existsb (fun suspicious =>
               match domain with
               | Some d => includes d suspicious
               | None => false
               end)
            suspiciousDomains.

Definition servicePatterns : list RegExp := [
  re "thank you for subscribing to ([A-Za-z0-9\s]+)" "i";
  re "welcome to ([A-Za-z0-9\s]+)" "i";
  re "your ([A-Za-z0-9\s]+) subscription" "i";
  re "([A-Za-z0-9\s]+) membership" "i"
].

(** The search in the content, the last part of [extractServiceName]. *)
Fixpoint service_from_content (patterns : list RegExp) (content : jsstring)
  : option jsstring :=
  match patterns with
  | [] => None
  | pattern :: rest =>
      match search pattern content with
      | Some m =>
          match capture m with
          | Some (c :: g) => Some (trim (c :: g))
          | _ => service_from_content rest content
          end
      | None => service_from_content rest content
      end
  end.

Definition extractServiceName (from : jsstring) (content : jsstring)
  : option jsstring :=
  let domain :=
    (fun d => remove_first (re "^(mail\.|noreply\.|no-reply\.)" "") (toLowerCase d))
      <$> sender_domain from in
  let fromDomain :=
    match domain with
    | Some (c :: d') =>
        let domain := c :: d' in
        match List.find (fun service => includes domain service)
                        COMMON_SUBSCRIPTION_SERVICES with
        | Some service => Some (capitalize service)
        | None =>
            let companyName := default [] (head (split_on (ch ".") domain)) in
            if truthy companyName && (2 <? length companyName)
            then Some (capitalize companyName)
            else None
        end
    | _ => None
    end in
  match fromDomain with
  | Some name => Some name
  | None => service_from_content servicePatterns content
  end.

Definition extractCurrency (text : jsstring) : jsstring :=
  if includes text (js "$") || includes text (js "USD") then js "USD"
  else if includes text (js "€") || includes text (js "EUR") then js "EUR"
  else if includes text (js "£") || includes text (js "GBP") then js "GBP"
  else js "USD".

Definition costPatterns : list RegExp := [
  re "\$(\d+(?:\.\d{2})?)" "";
  re "(\d+(?:\.\d{2})?)\s*USD" "i";
  re "€(\d+(?:\.\d{2})?)" "";
  re "£(\d+(?:\.\d{2})?)" ""
].

Definition cyclePatterns : list RegExp := [
  re "monthly" "i";
  re "quarterly" "i";
  re "annually" "i";
  re "yearly" "i";
  re "weekly" "i"
].

(** [s.replace(old, '')] for a string [old]: its first occurrence goes. *)
Fixpoint remove_first_string (old s : jsstring) : jsstring :=
  if starts_with old s then drop (length old) s
  else match s with
       | [] => []
       | c :: t => c :: remove_first_string old t
       end.

(** The fields [extractSubscriptionData] may set. *)
Record PartialSubscription := {
  p_cost : option amount;
  p_currency : option jsstring;
  p_billingCycle : option jsstring;
  p_trialEndDate : option timestamp
}.

Section WithDateParser.
Context `{chrono : DateParser}.

(** [now] is what [Date.now()] reads during the call. *)
Definition extractSubscriptionData (now : timestamp) (content : jsstring)
  : PartialSubscription :=
  (* Extract cost *)
  let cost_match :=
    List.find (fun m => true) (omap (fun pattern => search pattern content) costPatterns) in
  let cost := cost_match ≫= (fun m => parseFloat (default [] (capture m))) in
  let currency := (fun m => extractCurrency (matched m)) <$> cost_match in
  (* Extract billing cycle *)
  let billingCycle :=
    (fun pattern => remove_first_string (js "ly") (toLowerCase (source pattern)))
      <$> List.find (fun pattern => test pattern content) cyclePatterns in
  (* Extract dates using existing email parser *)
  let emailObj :=
    {| EmailParserJs.from := Some [];
       EmailParserJs.subject := Some (substring0 100 content);
       EmailParserJs.body := Some content;
       EmailParserJs.date := None |} in
  let trialEndDate :=
    match EmailParserJs.parseSubscriptionEmail now emailObj with
    | inr parsed => EmailParserJs.trialEndDate (EmailParserJs.data parsed)
    | inl error => None   (* Ignore parsing errors *)
    end in
  {| p_cost := cost; p_currency := currency;
     p_billingCycle := billingCycle; p_trialEndDate := trialEndDate |}.

(** The number of patterns of the type that match. *)
Definition currentTypeMatches (content : jsstring) (type : DetectionType) : nat :=
  length (List.filter (fun p => test p content) (patterns_of type)).

Definition cost_mentioned : RegExp := re "\$\d+|\d+.*USD|€\d+|£\d+" "i".
Definition cycle_mentioned : RegExp := re "monthly|quarterly|annually|yearly|weekly" "i".
Definition date_mentioned : RegExp :=
  re "\d{1,2}\/\d{1,2}\/\d{4}|\d{4}-\d{2}-\d{2}|january|february|march|april|may|june|july|august|september|october|november|december" "i".

(** The arithmetic of [calculateConfidence], on what it reads off the
    content. *)
Definition score (matches : nat) (cost cycle date : bool) : number :=
  let confidence := 0.5%float in
  let confidence := (confidence + of_nat matches * 0.1)%float in
  let confidence := if cost then (confidence + 0.2)%float else confidence in
  let confidence := if cycle then (confidence + 0.1)%float else confidence in
  let confidence := if date then (confidence + 0.1)%float else confidence in
  math_min confidence 1.0%float.

Definition calculateConfidence (content : jsstring) (type : DetectionType) : number :=
  score (currentTypeMatches content type)
        (test cost_mentioned content)
        (test cycle_mentioned content)
        (test date_mentioned content).

(** The body the five [detect...] methods share. *)
Definition detect (now : timestamp) (type : DetectionType)
  (content serviceName : jsstring) : option DetectedSubscription :=
  if existsb (fun pattern => test pattern content) (patterns_of type) then
    let extractedData := extractSubscriptionData now content in
    Some {| serviceName := serviceName;
            detectionType := type;
            confidence := calculateConfidence content type;
            cost := p_cost extractedData;
            currency := p_currency extractedData;
            billingCycle := p_billingCycle extractedData;
            trialEndDate := p_trialEndDate extractedData;
            nextBillingDate := None;
            extractedData := substring0 500 content |}
  else None.

Definition detectTrialSignup now := detect now trial_signup.
Definition detectTrialReminder now := detect now trial_reminder.
Definition detectBillingConfirmation now := detect now billing_confirmation.
Definition detectSubscriptionStart now := detect now subscription_start.
Definition detectPriceChange now := detect now price_change.

(** [push] when the detection is not [null]. *)
Definition push_if (detections : list DetectedSubscription)
  (d : option DetectedSubscription) : list DetectedSubscription :=
  match d with Some x => detections ++ [x] | None => detections end.

Definition parseEmail (now : timestamp) (emailData : EmailData)
  : list DetectedSubscription :=
  let content := getEmailContent emailData in
  let detections := [] in
  (* Check if email is spam *)
  if isSpamEmail content (from emailData) then detections
  else
    (* Extract service name *)
    match extractServiceName (from emailData) content with
    | None | Some [] => detections
    | Some serviceName =>
        let detections := push_if detections (detectTrialSignup now content serviceName) in
        let detections := push_if detections (detectTrialReminder now content serviceName) in
        let detections := push_if detections (detectBillingConfirmation now content serviceName) in
        let detections := push_if detections (detectSubscriptionStart now content serviceName) in
        let detections := push_if detections (detectPriceChange now content serviceName) in
        detections
    end.

(** How the promise of the [async] method settles.  Nothing thrown
    inside the call escapes it: the one [throw] it can reach, in
    [parseSubscriptionEmail], is inside the [try] of
    [extractSubscriptionData]. *)
Inductive Settled :=
| Resolved (detections : list DetectedSubscription)
| Rejected (error : EmailParserJs.exn).

Definition parseEmail_settled (now : timestamp) (emailData : EmailData) : Settled :=
  Resolved (parseEmail now emailData).

End WithDateParser.

(** The subject, the text body and the HTML body are all empty or
    missing. *)
Definition no_content (emailData : EmailData) : bool :=
  negb (truthy (subject emailData))
  && EmailParserJs.falsy (bodyText emailData)
  && EmailParserJs.falsy (bodyHtml emailData).

End EmailSubscriptionParser.

(* ================================================================== *)
(** ** [src/lib/validations.ts] *)
(* ================================================================== *)

Module Validations.

(** The values the subscription schema takes for [billingCycle], which
    are the values the column [billing_cycle] admits. *)
Definition billingCycle_enum : list jsstring :=
  List.map js ["monthly"; "quarterly"; "semi-annually"; "annually"; "weekly"]%string.

End Validations.

(* ================================================================== *)
(** ** [src/utils.js]: helpers of the module-level parser *)
(* ================================================================== *)

Module UtilsJs.

(** The table [patterns] of [detectBillingCycle], in the order of its
    keys. *)
Definition cycle_table : list (jsstring * RegExp) := [
  (js "monthly", re "month(?:ly)?|every\s+month|per\s+month" "i");
  (js "annually", re "annual(?:ly)?|year(?:ly)?|every\s+year|per\s+year" "i");
  (js "quarterly", re "quarter(?:ly)?|every\s+3\s+months" "i");
  (js "weekly", re "week(?:ly)?|every\s+week|per\s+week" "i")
].

Definition detectBillingCycle (emailContent : jsstring) : jsstring :=
  match List.find (fun '(cycle, pattern) => test pattern emailContent) cycle_table with
  | Some (cycle, _) => cycle
  | None => js "monthly"
  end.

(** [ToInt32]: the integer brought into the signed 32-bit range. *)
Definition to_int32 (z : Z) : Z := ((z + 2 ^ 31) mod 2 ^ 32 - 2 ^ 31)%Z.

(** [a << k] and [a & b] on numbers that hold integers. *)
Definition shift_left (a k : Z) : Z := to_int32 (Z.shiftl (to_int32 a) k).
Definition bit_and (a b : Z) : Z := to_int32 (Z.land (to_int32 a) (to_int32 b)).

(** One round of the loop of [simpleHash], [char] being
    [str.charCodeAt(i)]. *)
Definition simpleHash_round (hash : Z) (char : code_unit) : Z :=
  let hash := (shift_left hash 5 - hash + Z.of_N char)%Z in
  bit_and hash hash.

Definition simpleHash_loop (str : jsstring) : Z :=
  foldl simpleHash_round 0%Z str.

(** The digit of [d] in base 36: [0-9a-z]. *)
Definition digit36 (d : Z) : code_unit :=
  if (d <? 10)%Z then Z.to_N (48 + d) else Z.to_N (87 + d).

Fixpoint digits36 (fuel : nat) (n : Z) (acc : jsstring) : jsstring :=
  match fuel with
  | O => acc
  | S f =>
      let acc := digit36 (n mod 36) :: acc in
      if (n / 36 =? 0)%Z then acc else digits36 f (n / 36) acc
  end.

(** [n.toString(36)] for an integer [n >= 0] below 2^53. *)
Definition toString36 (n : Z) : jsstring := digits36 11 n [].

(** [Math.abs(hash).toString(36).substring(0, 8)]. *)
Definition simpleHash (str : jsstring) : jsstring :=
  take 8 (toString36 (Z.abs (simpleHash_loop str))).

(** What [validateEmail] returns. *)
Record Validation := {
  isValid : bool;
  errors : list jsstring
}.

(** [fields.join(', ')]. *)
Fixpoint join (sep : jsstring) (l : list jsstring) : jsstring :=
  match l with
  | [] => []
  | [x] => x
  | x :: l' => x ++ sep ++ join sep l'
  end.

Definition emailRegex : RegExp := re "^[^\s@]+@[^\s@]+\.[^\s@]+$" "".

Definition validateEmail (email : EmailParserJs.Email) : Validation :=
  let requiredFields :=
    [(js "subject", EmailParserJs.subject email);
     (js "body", EmailParserJs.body email);
     (js "from", EmailParserJs.from email)] in
  let missingFields :=
    fst <$> List.filter (fun '(_, value) => EmailParserJs.falsy value) requiredFields in
  match missingFields with
  | _ :: _ =>
      {| isValid := false;
         errors := [js "Missing required fields: " ++ join (js ", ") missingFields] |}
  | [] =>
      if test emailRegex (EmailParserJs.str (EmailParserJs.from email))
      then {| isValid := true; errors := [] |}
      else {| isValid := false; errors := [js "Invalid from email address"] |}
  end.

End UtilsJs.

(* ================================================================== *)
(** ** [src/app/api/email/route.ts]: what is stored for a detection *)
(* ================================================================== *)

Module EmailRoute.

Import EmailSubscriptionParser.

(** The values [processIncomingEmail] gives to the column [status]. *)
Inductive DetectionStatus := auto_added | pending.

(** The row inserted into [detected_subscriptions] for a detection, less
    the two identifiers the database supplies. *)
Record DetectedSubscriptionRow := {
  service_name : jsstring;
  row_cost : option amount;
  row_currency : jsstring;
  billing_cycle : option jsstring;
  trial_end_date : option timestamp;
  next_billing_date : option timestamp;
  confidence_score : number;
  detection_type : DetectionType;
  extracted_data : jsstring;
  status : DetectionStatus
}.

(** [detection.confidence > 0.8]. *)
Definition high_confidence (detection : DetectedSubscription) : bool :=
  PrimFloat.ltb 0.8%float (confidence detection).

Definition detection_row (detection : DetectedSubscription) : DetectedSubscriptionRow :=
  {| service_name := serviceName detection;
     row_cost := cost detection;
     row_currency := match currency detection with
                     | Some (c :: t) => c :: t
                     | _ => js "USD"
                     end;
     billing_cycle := billingCycle detection;
     trial_end_date := trialEndDate detection;
     next_billing_date := nextBillingDate detection;
     confidence_score := confidence detection;
     detection_type := detectionType detection;
     extracted_data := extractedData detection;
     status := if high_confidence detection then auto_added else pending |}.

(** The rows of one message, and those [autoAddSubscription] is called
    for. *)
Definition detection_rows (detections : list DetectedSubscription)
  : list DetectedSubscriptionRow :=
  List.map detection_row detections.


End EmailRoute.

(* ================================================================== *)
(** ** A date parser for concrete messages *)
(* ================================================================== *)

(** An implementation of the date parser's interface to run the parsers
    on concrete messages.  It reads the dates written [Month D, YYYY], in
    the order they stand in the text, and places each at noon UTC, as
    [chrono-node] does for a date without a time. *)
Module MonthDayYear.

Import Chrono.

Definition months : list jsstring :=
  List.map js ["january"; "february"; "march"; "april"; "may"; "june"; "july";
               "august"; "september"; "october"; "november"; "december"]%string.

Definition date_pattern : RegExp :=
  re "(?:january|february|march|april|may|june|july|august|september|october|november|december)\s+\d{1,2},\s+\d{4}" "gi".

(** Days from 1970-01-01 to the civil date [y]-[m]-[d]. *)
Definition days_from_civil (y m d : Z) : Z :=
  let y' := (if m <=? 2 then y - 1 else y)%Z in
  let era := (y' / 400)%Z in
  let yoe := (y' - era * 400)%Z in
  let mp := ((m + 9) mod 12)%Z in
  let doy := ((153 * mp + 2) / 5 + d - 1)%Z in
  let doe := (yoe * 365 + yoe / 4 - yoe / 100 + doy)%Z in
  (era * 146097 + doe - 719468)%Z.

(** The month whose name starts the text, counted from 1. *)
Definition month_number (text : jsstring) : Z :=
  let fix go (k : Z) (l : list jsstring) : Z :=
    match l with
    | [] => 0%Z
    | name :: l' => if starts_with name (toLowerCase text) then k else go (k + 1)%Z l'
    end in
  go 1%Z months.

Fixpoint skip_to_digit (s : jsstring) : jsstring :=
  match s with
  | c :: t => if is_digit c then s else skip_to_digit t
  | [] => []
  end.

Definition read_date (text : jsstring) : timestamp :=
  let '(day, t) := digits_value 0 (skip_to_digit text) in
  let '(year, _) := digits_value 0 (skip_to_digit t) in
  (days_from_civil (Z.of_N year) (month_number text) (Z.of_N day) * 86400000
   + 43200000)%Z.

#[global] Instance month_day_year : DateParser := {|
  parse content :=
    List.map (fun m => {| result_date := read_date (matched m);
                          result_text := matched m;
                          result_tags := true |})
             (matches date_pattern content)
|}.

End MonthDayYear.

(* ================================================================== *)
(** ** Messages used in the statements below *)
(* ================================================================== *)

Module Scenarios.

Import EmailSubscriptionParser.

Definition message (sender subj : string) (text : option string) : EmailData :=
  {| from := js sender;
     to := js "user@subtracker.tech";
     subject := js subj;
     bodyText := js <$> text;
     bodyHtml := None;
     receivedAt := 1735732800000%Z;
     messageId := None;
     headers := [] |}.

(** The renewal notice of the first end-to-end scenario. *)
Definition netflix_renewal : EmailData :=
  message "billing@netflix.com"
          "Your Netflix subscription has been renewed"
          (Some "Your Netflix subscription has been renewed for $15.99/month. Next billing date is January 27, 2025."%string).

(** The same notice, with the cycle spelled as the keyword [monthly]. *)
Definition netflix_monthly : EmailData :=
  message "billing@netflix.com"
          "Your Netflix subscription has been renewed"
          (Some "Your Netflix subscription has been renewed. You are billed $15.99 monthly."%string).

(** The promotional message of the third end-to-end scenario. *)
Definition promotion : EmailData :=
  message "promo@dealsnow.biz"
          "Congratulations you won a free trial!! Act now!"
          None.

(** A message with nothing in its subject and no body. *)
Definition empty_message : EmailData :=
  message "billing@netflix.com" "" None.

(** The example of the README of the module-level parser. *)
Definition readme_email : EmailParserJs.Email :=
  {| EmailParserJs.from := Some (js "noreply@netflix.com");
     EmailParserJs.subject := Some (js "Your free trial is ending soon");
     EmailParserJs.body := Some (js "Your Netflix free trial will end on December 15, 2024. After this date, you'll be charged $15.99 per month.");
     EmailParserJs.date := Some 1733652000000%Z |}.

(** A notice, dated 2026-01-01, that names two later dates, the later one
    first. *)
Definition two_dates_email : EmailParserJs.Email :=
  {| EmailParserJs.from := Some (js "billing@acme.io");
     EmailParserJs.subject := Some (js "Your plan");
     EmailParserJs.body := Some (js "Your plan renews on March 1, 2026. The previous notice said February 1, 2026.");
     EmailParserJs.date := Some 1767225600000%Z |}.

(** An email that quotes one price twice and another once. *)
Definition two_prices_email : EmailParserJs.Email :=
  {| EmailParserJs.from := Some (js "billing@acme.io");
     EmailParserJs.subject := Some (js "Your plan is now $9.99");
     EmailParserJs.body := Some (js "You pay $9.99 instead of $19.99.");
     EmailParserJs.date := None |}.

(** An email that quotes two prices, each once. *)
Definition discount_email : EmailParserJs.Email :=
  {| EmailParserJs.from := Some (js "billing@acme.io");
     EmailParserJs.subject := Some (js "A discount for you");
     EmailParserJs.body := Some (js "You pay $5 instead of $10.");
     EmailParserJs.date := None |}.

Definition noon_2024_12_15 : timestamp := 1734264000000%Z.
Definition noon_2026_02_01 : timestamp := 1769947200000%Z.
Definition noon_2026_03_01 : timestamp := 1772366400000%Z.

(** 2025-01-01 and 2026-01-01, 00:00 UTC, and noon of 2025-01-27. *)
Definition new_year_2025 : timestamp := 1735689600000%Z.
Definition new_year_2026 : timestamp := 1767225600000%Z.
Definition noon_2025_01_27 : timestamp := 1737979200000%Z.

(** What the renewal notice is detected as, on 2025-01-01. *)
Definition netflix_detection : DetectedSubscription :=
  {| serviceName := js "Netflix";
     detectionType := billing_confirmation;
     confidence := 0.9%float;
     cost := Some 1599%N;
     currency := Some (js "USD");
     billingCycle := None;
     trialEndDate := Some noon_2025_01_27;
     nextBillingDate := None;
     extractedData := getEmailContent netflix_renewal |}.

End Scenarios.

(* ================================================================== *)
(** ** Notions used in the statements *)
(* ================================================================== *)

Module Notions.

Import EmailParserJs EmailSubscriptionParser.

Local Open Scope nat_scope.

Definition flags : list bool := [false; true].

(** The range of [score], checked at every input it can get. *)
Definition score_in_range : bool :=
  forallb (fun k => forallb (fun c => forallb (fun y => forallb (fun d =>
    PrimFloat.leb 0.5%float (score k c y d) && PrimFloat.leb (score k c y d) 1%float)
  flags) flags) flags) (seq 0 8).

(** With one pattern matching at least, the score is 0.6 or more. *)
Definition score_with_match : bool :=
  forallb (fun k => forallb (fun c => forallb (fun y => forallb (fun d =>
    PrimFloat.leb 0.6%float (score (S k) c y d)
    && negb (PrimFloat.leb (score (S k) c y d) 0.5%float))
  flags) flags) flags) (seq 0 7).

(** [score] grows with the count and with each flag. *)
Definition score_monotone : bool :=
  forallb (fun k => forallb (fun k' =>
  forallb (fun c => forallb (fun c' =>
  forallb (fun y => forallb (fun y' =>
  forallb (fun d => forallb (fun d' =>
    implb ((k <=? k') && implb c c' && implb y y' && implb d d')
          (PrimFloat.leb (score k c y d) (score k' c' y' d')))
  flags) flags) flags) flags) flags) flags) (seq 0 8)) (seq 0 8).

(** The sum of the module-level scorer, at every combination of its five
    tests. *)
Definition legacy_sum (a b c d e : bool) : number :=
  let s := 0%float in
  let s := if a then (s + 0.3)%float else s in
  let s := if b then (s + 0.2)%float else s in
  let s := if c then (s + 0.2)%float else s in
  let s := if d then (s + 0.2)%float else s in
  let s := if e then (s + 0.1)%float else s in
  s.

Abbreviation count l v := (count_occ N.eq_dec l v).

(** What the loop of [findMode] knows after reading [l]: the table holds
    the number of occurrences of every value, [maxFreq] is the largest of
    them, and [mode] is a value that occurs [maxFreq] times. *)
Record mode_invariant (l : list amount) (st : ModeState) : Prop := {
  inv_frequency : forall v, default 0 (frequency st !! v) = count l v;
  inv_max : forall v, count l v <= maxFreq st;
  inv_mode : match mode st with
             | Some m => count l m = maxFreq st
             | None => maxFreq st = 0
             end
}.

Abbreviation unique_from acc l :=
  (foldl (fun seen a => if decide (a ∈ seen) then seen else seen ++ [a]) acc l).

(** A median of a list: one of its values, with at least half of the
    values at or below it and at least half at or above it. *)
Definition is_median (m : amount) (l : list amount) : Prop :=
  In m l
  /\ length l <= 2 * length (List.filter (fun x => x <=? m)%N l)
  /\ length l <= 2 * length (List.filter (fun x => m <=? x)%N l).

(** The pattern matches at the start of [s], the match beginning at
    position [i]. *)
Definition matches_at (p : RegExp) (i : nat) (s : jsstring) : Prop :=
  run (ignoreCase p) (ast p) {| pos := i; group1 := None; rest := s |} <> [].

(** The patterns the scorer of the class reads. *)
Definition scorer_patterns : list RegExp :=
  TRIAL_SIGNUP_PATTERNS ++ TRIAL_REMINDER_PATTERNS
  ++ BILLING_CONFIRMATION_PATTERNS ++ SUBSCRIPTION_START_PATTERNS
  ++ PRICE_CHANGE_PATTERNS
  ++ [cost_mentioned; cycle_mentioned; date_mentioned].

(** A detection without its trial end date. *)
Definition without_trialEndDate (d : DetectedSubscription) : DetectedSubscription :=
  {| serviceName := serviceName d;
     detectionType := detectionType d;
     confidence := confidence d;
     cost := cost d;
     currency := currency d;
     billingCycle := billingCycle d;
     trialEndDate := None;
     nextBillingDate := nextBillingDate d;
     extractedData := extractedData d |}.

(** A message with another time of receipt. *)
Definition with_receivedAt (r : timestamp) (m : EmailData) : EmailData :=
  {| from := from m; to := to m; subject := subject m;
     bodyText := bodyText m; bodyHtml := bodyHtml m;
     receivedAt := r; messageId := messageId m; headers := headers m |}.

(** Every pattern of the two parsers. *)
Definition all_patterns : list RegExp :=
  flat_map snd SUBSCRIPTION_PATTERNS ++ AMOUNT_PATTERNS ++ SERVICE_NAME_PATTERNS
  ++ [trial_end_section; re "@([^.]+)" ""; re "@(.+)$" ""; re "\s+" ""; re "^[A-Z]" ""]
  ++ scorer_patterns ++ SPAM_PATTERNS ++ servicePatterns ++ costPatterns
  ++ cyclePatterns ++ [re "^(mail\.|noreply\.|no-reply\.)" ""].

End Notions.

Import Notions.

(* ================================================================== *)
(** ** Notions used in the statements about the rest of the code *)
(* ================================================================== *)

Module MoreNotions.

Import EmailParserJs EmailSubscriptionParser.

Local Open Scope nat_scope.

(** The disposable-mailbox names [isSpamEmail] looks for in the domain of
    the sender. *)
Definition suspiciousDomains : list jsstring :=
  List.map js ["tempmail"; "guerrillamail"; "10minutemail"]%string.

(** The detection types, in the order [parseEmail] tries them. *)
Definition detection_types : list DetectionType :=
  [trial_signup; trial_reminder; billing_confirmation; subscription_start;
   price_change].

(** A pattern of the type matches the content. *)
Definition candidate (content : jsstring) (t : DetectionType) : bool :=
  existsb (fun pattern => test pattern content) (patterns_of t).

(** The message with text put before its subject and after its HTML
    body: the content gets the text at its two ends. *)
Definition surround (before after : jsstring) (m : EmailData) : EmailData :=
  {| from := from m; to := to m;
     subject := before ++ subject m;
     bodyText := bodyText m;
     bodyHtml := Some (default [] (bodyHtml m) ++ after);
     receivedAt := receivedAt m; messageId := messageId m; headers := headers m |}.




(** The sum [simpleHash] computes, before it is brought into 32 bits:
    each character times a power of 31. *)
Definition polynomial31 (str : jsstring) : Z :=
  foldl (fun acc c => (31 * acc + Z.of_N c)%Z) 0%Z str.

(** A digit or a lower-case letter. *)
Definition is_base36_digit (c : code_unit) : bool := is_digit c || is_lower c.

(** The value of a digit of base 36, and the number a string of such
    digits denotes. *)
Definition digit36_value (c : code_unit) : Z :=
  if is_digit c then (Z.of_N c - 48)%Z else (Z.of_N c - 87)%Z.

Definition parseInt36 (digits : jsstring) : Z :=
  foldl (fun value c => (36 * value + digit36_value c)%Z) 0%Z digits.

(** The values [detectBillingCycle] returns. *)
Definition detected_cycles : list jsstring :=
  List.map js ["monthly"; "annually"; "quarterly"; "weekly"]%string.

(** The pattern [r] matches at position [i], and at or after it. *)
Definition found (ic : bool) (r : regex) (i : nat) (s : jsstring) : bool :=
  match run ic r {| pos := i; group1 := None; rest := s |} with
  | [] => false
  | _ :: _ => true
  end.

Fixpoint test_from (ic : bool) (r : regex) (i : nat) (s : jsstring) : bool :=
  found ic r i s
  || match s with
     | [] => false
     | _ :: t => test_from ic r (S i) t
     end.

(** [r1|r2|...|rn]. *)
Fixpoint alternation (rs : list regex) : regex :=
  match rs with
  | [] => Never
  | [r] => r
  | r :: rs' => Or r (alternation rs')
  end.

(** The bounds of the module-level confidence. *)
Definition legacy_sum_facts : bool :=
  forallb (fun a => forallb (fun b => forallb (fun c => forallb (fun d => forallb (fun e =>
    PrimFloat.leb (legacy_sum a b c d e) 0.9999999999999999%float
    && implb (a || b || c || d || e) (PrimFloat.leb 0.1%float (legacy_sum a b c d e))
    && implb a (PrimFloat.leb 0.3%float (legacy_sum a b c d e)))
  flags) flags) flags) flags) flags.

(** The patterns of [SUBSCRIPTION_PATTERNS], of every type, that match a
    content. *)
Definition matching_patterns (content : jsstring) : list RegExp :=
  List.filter (fun pattern => test pattern content)
              (flat_map snd SUBSCRIPTION_PATTERNS).

End MoreNotions.

Import MoreNotions.

(* ================================================================== *)
(** ** The regular expressions, on examples *)
(* ================================================================== *)

(** Every pattern is read from its source in full. *)
Lemma all_patterns_well_formed : forallb well_formed all_patterns = true.
Proof. vm_compute. reflexivity. Qed.

(** [.*] is greedy: the match of [a.*b] runs to the last [b]. *)
Example greedy_star :
  matched <$> search (re "a.*b" "") (js "xaXbYbZ") = Some (js "aXbYb").
Proof. vm_compute. reflexivity. Qed.

(** The flag [i] makes letters match in either case. *)
Example ignore_case :
  test (re "subscription.*renewed" "i") (js "Your SUBSCRIPTION was Renewed") = true
  /\ test (re "subscription.*renewed" "") (js "Your SUBSCRIPTION was Renewed") = false.
Proof. split; vm_compute; reflexivity. Qed.

(** [.] stops at a line break. *)
Example dot_stops_at_newline :
  test (re "act.*now" "i") (js "act" ++ [10%N] ++ js "now") = false.
Proof. vm_compute. reflexivity. Qed.

(** The group of a cost pattern holds the number: two decimals or none. *)
Example cost_capture :
  (capture <$> search (re "\$(\d+(?:\.\d{2})?)" "") (js "for $15.99/month"))
  = Some (Some (js "15.99"))
  /\ (capture <$> search (re "\$(\d+(?:\.\d{2})?)" "") (js "for $12.5 a week"))
     = Some (Some (js "12")).
Proof. split; vm_compute; reflexivity. Qed.

(** The loop over a pattern with the flag [g] finds every match. *)
Example global_matches :
  capture <$> matches (re "\$\s*(\d+(?:\.\d{2})?)" "g") (js "$9.99, then $ 19 or $5.00")
  = [Some (js "9.99"); Some (js "19"); Some (js "5.00")].
Proof. vm_compute. reflexivity. Qed.

(** A bounded repetition reaches no further than its bound. *)
Example bounded_repetition :
  test (re "trial.{0,5}ends" "i") (js "trial now ends") = true
  /\ test (re "trial.{0,5}ends" "i") (js "trial really ends") = false.
Proof. split; vm_compute; reflexivity. Qed.

(** [split] on white space, and the removal of a prefix. *)
Example split_and_replace :
  split_re (re "\s+" "") (js "Your  Netflix trial") = [js "Your"; js "Netflix"; js "trial"]
  /\ remove_first (re "^(mail\.|noreply\.|no-reply\.)" "") (js "mail.netflix.com")
     = js "netflix.com".
Proof. split; vm_compute; reflexivity. Qed.

(* ================================================================== *)
(** ** Properties of the confidence scores *)
(* ================================================================== *)

Import EmailSubscriptionParser.

Local Open Scope nat_scope.

(** No pattern set has more than seven patterns, so the count of matching
    patterns of a type is among 0, ..., 7. *)
Lemma currentTypeMatches_le_7 content t : currentTypeMatches content t <= 7.
Proof.
  unfold currentTypeMatches.
  etransitivity; [apply List.filter_length_le|].
  destruct t; vm_compute; lia.
Qed.

Lemma in_flags b : In b flags.
Proof. destruct b; simpl; auto. Qed.

Lemma in_counts k : k <= 7 -> In k (seq 0 8).
Proof. intros. apply in_seq. lia. Qed.

Lemma score_range k c y d :
  k <= 7 -> le 0.5 (score k c y d) /\ le (score k c y d) 1.
Proof.
  intros Hk.
  assert (Hall : score_in_range = true) by (vm_compute; reflexivity).
  unfold score_in_range in Hall.
  rewrite forallb_forall in Hall. specialize (Hall k (in_counts k Hk)).
  rewrite forallb_forall in Hall. specialize (Hall c (in_flags c)).
  rewrite forallb_forall in Hall. specialize (Hall y (in_flags y)).
  rewrite forallb_forall in Hall. specialize (Hall d (in_flags d)).
  apply andb_prop in Hall. exact Hall.
Qed.

Lemma score_at_least_06 k c y d :
  1 <= k <= 7 ->
  le 0.6 (score k c y d) /\ PrimFloat.leb (score k c y d) 0.5%float = false.
Proof.
  intros Hk. destruct k as [|k]; [lia|].
  assert (Hall : score_with_match = true) by (vm_compute; reflexivity).
  unfold score_with_match in Hall.
  rewrite forallb_forall in Hall.
  specialize (Hall k ltac:(apply in_seq; lia)).
  rewrite forallb_forall in Hall. specialize (Hall c (in_flags c)).
  rewrite forallb_forall in Hall. specialize (Hall y (in_flags y)).
  rewrite forallb_forall in Hall. specialize (Hall d (in_flags d)).
  apply andb_prop in Hall as [H06 H05]. split; [exact H06|].
  now apply negb_true_iff.
Qed.

Lemma score_mono k k' c c' y y' d d' :
  k <= k' <= 7 ->
  (c = true -> c' = true) -> (y = true -> y' = true) -> (d = true -> d' = true) ->
  le (score k c y d) (score k' c' y' d').
Proof.
  intros Hk Hc Hy Hd.
  assert (Hall : score_monotone = true) by (vm_compute; reflexivity).
  unfold score_monotone in Hall.
  rewrite forallb_forall in Hall. specialize (Hall k ltac:(apply in_seq; lia)).
  rewrite forallb_forall in Hall. specialize (Hall k' ltac:(apply in_seq; lia)).
  rewrite forallb_forall in Hall. specialize (Hall c (in_flags c)).
  rewrite forallb_forall in Hall. specialize (Hall c' (in_flags c')).
  rewrite forallb_forall in Hall. specialize (Hall y (in_flags y)).
  rewrite forallb_forall in Hall. specialize (Hall y' (in_flags y')).
  rewrite forallb_forall in Hall. specialize (Hall d (in_flags d)).
  rewrite forallb_forall in Hall. specialize (Hall d' (in_flags d')).
  assert (Hpre : (k <=? k') && implb c c' && implb y y' && implb d d' = true).
  { rewrite !andb_true_iff. repeat split.
    - apply Nat.leb_le. lia.
    - destruct c, c'; auto; discriminate Hc; auto.
    - destruct y, y'; auto; discriminate Hy; auto.
    - destruct d, d'; auto; discriminate Hd; auto. }
  rewrite Hpre in Hall. exact Hall.
Qed.

(** The more patterns of a list match, the longer the filtered list. *)
Lemma filter_length_mono {A} (f g : A -> bool) (l : list A) :
  (forall x, In x l -> f x = true -> g x = true) ->
  length (List.filter f l) <= length (List.filter g l).
Proof.
  induction l as [|a l IH]; intros Hfg; simpl; [lia|].
  assert (IH' : length (List.filter f l) <= length (List.filter g l)).
  { apply IH. intros x Hx. apply Hfg. now right. }
  destruct (f a) eqn:Hfa.
  - rewrite (Hfg a (or_introl eq_refl) Hfa). simpl. lia.
  - destruct (g a); simpl; lia.
Qed.

(** A type with a matching pattern has a positive count. *)
Lemma existsb_filter_pos {A} (f : A -> bool) (l : list A) :
  existsb f l = true -> 1 <= length (List.filter f l).
Proof.
  induction l as [|a l IH]; simpl; [discriminate|].
  destruct (f a); simpl; [lia|]. exact IH.
Qed.

Lemma legacy_sum_range a b c d e :
  le 0 (legacy_sum a b c d e) /\ le (legacy_sum a b c d e) 1.
Proof. destruct a, b, c, d, e; vm_compute; auto. Qed.

Lemma legacy_confidence_is_sum email extractedData :
  exists a b c d e,
    EmailParserJs.calculateConfidence email extractedData = legacy_sum a b c d e.
Proof.
  unfold EmailParserJs.calculateConfidence.
  exists (bool_decide (EmailParserJs.type extractedData <> EmailParserJs.unknown)),
         (negb (JsString.eqb (EmailParserJs.serviceName extractedData)
                             (js "Unknown Service"))),
         (bool_decide (is_Some (EmailParserJs.trialEndDate extractedData))),
         (EmailParserJs.amount_truthy (EmailParserJs.billingAmount extractedData)),
         (2 <? EmailParserJs.countPatternMatches email).
  destruct (bool_decide _), (negb _), (bool_decide _),
           (EmailParserJs.amount_truthy _), (2 <? _); reflexivity.
Qed.

(** C9. Every confidence value lies in the closed interval from 0 to 1:
    the score [calculateConfidence] of the class gives to a content and a
    detection type (0.5 plus bonuses, capped at 1), and the sum
    0.3/0.2/0.2/0.2/0.1 the module-level [calculateConfidence] gives to an
    email and its extracted data. *)
Theorem C9_confidence_within_unit_interval :
  (forall (content : jsstring) (t : DetectionType),
      le 0 (calculateConfidence content t) /\ le (calculateConfidence content t) 1)
  /\
  (forall (email : EmailParserJs.Email) (extractedData : EmailParserJs.ExtractedData),
      le 0 (EmailParserJs.calculateConfidence email extractedData)
      /\ le (EmailParserJs.calculateConfidence email extractedData) 1).
Proof.
  split.
  - intros content t. unfold calculateConfidence.
    pose proof (currentTypeMatches_le_7 content t) as Hk.
    remember (currentTypeMatches content t) as k eqn:Ek. clear Ek.
    destruct (test cost_mentioned content), (test cycle_mentioned content),
             (test date_mentioned content);
      do 8 (destruct k as [|k]; [vm_compute; auto|]); lia.
  - intros email extractedData.
    destruct (legacy_confidence_is_sum email extractedData)
      as (a & b & c & d & e & ->).
    apply legacy_sum_range.
Qed.

(** The score of a content whose signals are all signals of another is
    at most the score of the other. *)
Lemma calculateConfidence_mono (c c' : jsstring) (t : DetectionType) :
  (forall p, In p (patterns_of t) -> test p c = true -> test p c' = true) ->
  (test cost_mentioned c = true -> test cost_mentioned c' = true) ->
  (test cycle_mentioned c = true -> test cycle_mentioned c' = true) ->
  (test date_mentioned c = true -> test date_mentioned c' = true) ->
  le (calculateConfidence c t) (calculateConfidence c' t).
Proof.
  intros Hp Hcost Hcycle Hdate. unfold calculateConfidence.
  apply score_mono; auto. split.
  - unfold currentTypeMatches. now apply filter_length_mono.
  - apply currentTypeMatches_le_7.
Qed.

(** C3. Confidence never decreases when a signal is added: if every
    pattern of the type that matches [c] matches [c'], and [c'] mentions
    a cost, a billing cycle and a date whenever [c] does, then the
    confidence of [c'] for the type is at least that of [c]. *)
Theorem C3_confidence_monotone (c c' : jsstring) (t : DetectionType) :
  (forall p, In p (patterns_of t) -> test p c = true -> test p c' = true) ->
  (test cost_mentioned c = true -> test cost_mentioned c' = true) ->
  (test cycle_mentioned c = true -> test cycle_mentioned c' = true) ->
  (test date_mentioned c = true -> test date_mentioned c' = true) ->
  le (calculateConfidence c t) (calculateConfidence c' t).
Proof. exact (calculateConfidence_mono c c' t). Qed.

Section Detections.
Context `{chrono : Chrono.DateParser}.

Lemma detect_confidence now t content name d :
  detect now t content name = Some d ->
  detectionType d = t
  /\ existsb (fun pattern => test pattern content) (patterns_of t) = true
  /\ le 0.6 (confidence d)
  /\ PrimFloat.leb (confidence d) 0.5%float = false.
Proof.
  unfold detect.
  destruct (existsb _ (patterns_of t)) eqn:Hex; [|discriminate].
  intros [= <-]. cbn [detectionType confidence].
  split; [reflexivity|]. split; [reflexivity|].
  unfold calculateConfidence. apply score_at_least_06. split.
  - now apply existsb_filter_pos.
  - apply currentTypeMatches_le_7.
Qed.

Lemma in_push_if l o (d : DetectedSubscription) :
  In d (push_if l o) -> In d l \/ o = Some d.
Proof.
  destruct o as [x|]; simpl; auto.
  intros Hin. apply in_app_or in Hin as [Hin|[->|[]]]; auto.
Qed.

(** Every detection of [parseEmail] comes from [detect] on the content. *)
Lemma parseEmail_detections now m d :
  In d (parseEmail now m) ->
  exists t name, detect now t (getEmailContent m) name = Some d.
Proof.
  unfold parseEmail.
  destruct (isSpamEmail _ _); [intros []|].
  destruct (extractServiceName _ _) as [[|c name]|]; [intros []| |intros []].
  unfold detectTrialSignup, detectTrialReminder, detectBillingConfirmation,
    detectSubscriptionStart, detectPriceChange.
  intros Hin.
  repeat (apply in_push_if in Hin as [Hin|Hin]; [|eauto]).
  destruct Hin.
Qed.

(** C10. Every detection [parseEmail] returns has confidence 0.6 or more:
    a detection of a type is emitted only when a pattern of the type
    matches the content, and the scorer then adds 0.1 for each matching
    pattern to the base 0.5; so no detection has the base confidence 0.5
    or less. *)
Theorem C10_emitted_confidence_at_least_06
  (now : timestamp) (m : EmailData) (d : DetectedSubscription) :
  In d (parseEmail now m) ->
  existsb (fun pattern => test pattern (getEmailContent m))
          (patterns_of (detectionType d)) = true
  /\ le 0.6 (confidence d)
  /\ PrimFloat.leb (confidence d) 0.5%float = false.
Proof.
  intros Hin. apply parseEmail_detections in Hin as (t & name & Hd).
  apply detect_confidence in Hd as (-> & Hex & H06 & H05). auto.
Qed.

(** C4. A message whose content matches a spam pattern gets the empty
    list of detections, whatever else it says. *)
Theorem C4_spam_short_circuit (now : timestamp) (m : EmailData) :
  existsb (fun pattern => test pattern (getEmailContent m)) SPAM_PATTERNS = true ->
  parseEmail now m = [].
Proof.
  intros Hspam. unfold parseEmail, isSpamEmail. rewrite Hspam. reflexivity.
Qed.

End Detections.

Import Scenarios.

(** The renewal notice without and with a date: the date adds a signal. *)
Lemma C3_confidence_monotone_witness :
  le (calculateConfidence (js "Your subscription has been renewed for $9.99") billing_confirmation)
     (calculateConfidence (js "Your subscription has been renewed for $9.99 on 2025-01-27") billing_confirmation).
Proof.
  apply C3_confidence_monotone.
  - intros p Hp.
    repeat (destruct Hp as [<-|Hp]; [vm_compute; auto|]). destruct Hp.
  - vm_compute; auto.
  - vm_compute; auto.
  - vm_compute; auto.
Defined.

Lemma C10_emitted_confidence_at_least_06_witness :
  In netflix_detection
     (parseEmail (chrono := MonthDayYear.month_day_year) new_year_2025 netflix_renewal)
  /\ le 0.6 (confidence netflix_detection).
Proof.
  assert (Hin : In netflix_detection
                  (parseEmail (chrono := MonthDayYear.month_day_year)
                              new_year_2025 netflix_renewal))
    by (vm_compute; left; reflexivity).
  split; [exact Hin|].
  exact (proj1 (proj2 (C10_emitted_confidence_at_least_06
                         (chrono := MonthDayYear.month_day_year)
                         new_year_2025 netflix_renewal netflix_detection Hin))).
Defined.

Lemma C4_spam_short_circuit_witness :
  parseEmail (chrono := MonthDayYear.month_day_year) new_year_2025 promotion = [].
Proof.
  apply (C4_spam_short_circuit (chrono := MonthDayYear.month_day_year)).
  vm_compute. reflexivity.
Defined.

Section Netflix.
Context `{chrono : Chrono.DateParser}.

(** C1, as the code has it. For the renewal notice from
    billing@netflix.com, [parseEmail] returns exactly one detection, at
    any time and with any date parser: service name Netflix, type
    billing_confirmation, cost 15.99, currency USD and confidence 0.9,
    which is at least 0.8; the billing cycle is absent, the content
    having "/month" but none of the keywords monthly, quarterly,
    annually, yearly and weekly. *)
Theorem C1_netflix_renewal_detection (now : timestamp) :
  exists d,
    parseEmail now netflix_renewal = [d]
    /\ serviceName d = js "Netflix"
    /\ detectionType d = billing_confirmation
    /\ cost d = Some 1599%N
    /\ currency d = Some (js "USD")
    /\ billingCycle d = None
    /\ confidence d = 0.9%float
    /\ le 0.8 (confidence d).
Proof.
  eexists. split.
  - vm_compute. reflexivity.
  - vm_compute. repeat split; reflexivity.
Qed.

End Netflix.

(* ================================================================== *)
(** ** The end-to-end scenarios *)
(* ================================================================== *)

Lemma netflix_renewal_on_new_year_2025 :
  parseEmail (chrono := MonthDayYear.month_day_year) new_year_2025 netflix_renewal
  = [netflix_detection].
Proof. vm_compute. reflexivity. Qed.

(** C1, as the claim states it, fails: the detection of the renewal
    notice has no billing cycle, so it is not the one the claim
    describes, with billing cycle monthly. *)
Lemma C1_netflix_renewal_cycle_not_monthly :
  ~ exists d,
      parseEmail (chrono := MonthDayYear.month_day_year) new_year_2025 netflix_renewal = [d]
      /\ serviceName d = js "Netflix"
      /\ detectionType d = billing_confirmation
      /\ cost d = Some 1599%N
      /\ currency d = Some (js "USD")
      /\ billingCycle d = Some (js "monthly")
      /\ le 0.8 (confidence d).
Proof.
  intros (d & Hd & _ & _ & _ & _ & Hcycle & _).
  rewrite netflix_renewal_on_new_year_2025 in Hd.
  injection Hd as <-. discriminate Hcycle.
Qed.

Lemma map_push_if {B} (f : DetectedSubscription -> B) l o :
  List.map f (push_if l o)
  = List.map f l ++ match o with Some x => [f x] | None => [] end.
Proof.
  destruct o; simpl; [apply List.map_app|now rewrite app_nil_r].
Qed.

Lemma detect_clock `{chrono : Chrono.DateParser} now1 now2 t content name :
  match detect now1 t content name with
  | Some x => [without_trialEndDate x]
  | None => []
  end
  = match detect now2 t content name with
    | Some x => [without_trialEndDate x]
    | None => []
    end.
Proof. unfold detect. destruct (existsb _ _); reflexivity. Qed.

(** The clock reaches the detections through the trial end date only,
    and the time of receipt of the message does not reach them at all. *)
Lemma parseEmail_clock_and_receivedAt `{chrono : Chrono.DateParser}
  (now1 now2 r : timestamp) (m : EmailData) :
  List.map without_trialEndDate (parseEmail now1 m)
  = List.map without_trialEndDate (parseEmail now2 m)
  /\ parseEmail now1 (with_receivedAt r m) = parseEmail now1 m.
Proof.
  split; [|reflexivity].
  unfold parseEmail.
  destruct (isSpamEmail _ _); [reflexivity|].
  destruct (extractServiceName _ _) as [[|c name]|]; [reflexivity| |reflexivity].
  unfold detectTrialSignup, detectTrialReminder, detectBillingConfirmation,
    detectSubscriptionStart, detectPriceChange.
  rewrite !map_push_if, !(detect_clock now1 now2). reflexivity.
Qed.

(** C2, at a failing input. The same renewal notice, with the same
    [receivedAt], parsed on 2025-01-01 and on 2026-01-01: the first call
    finds the trial end date 2025-01-27, the second none, the date being
    compared with the clock. *)
Theorem C2_detection_depends_on_clock :
  List.map trialEndDate
    (parseEmail (chrono := MonthDayYear.month_day_year) new_year_2025 netflix_renewal)
  = [Some noon_2025_01_27]
  /\ List.map trialEndDate
       (parseEmail (chrono := MonthDayYear.month_day_year) new_year_2026 netflix_renewal)
     = [None]
  /\ parseEmail (chrono := MonthDayYear.month_day_year) new_year_2025 netflix_renewal
     <> parseEmail (chrono := MonthDayYear.month_day_year) new_year_2026 netflix_renewal.
Proof.
  assert (H25 : List.map trialEndDate
                  (parseEmail (chrono := MonthDayYear.month_day_year)
                              new_year_2025 netflix_renewal)
                = [Some noon_2025_01_27]) by (vm_compute; reflexivity).
  assert (H26 : List.map trialEndDate
                  (parseEmail (chrono := MonthDayYear.month_day_year)
                              new_year_2026 netflix_renewal)
                = [None]) by (vm_compute; reflexivity).
  split; [exact H25|]. split; [exact H26|].
  intros Heq. rewrite Heq, H26 in H25. discriminate H25.
Qed.

(** The values the billing cycle of a detection can take. *)
Lemma billingCycle_values `{chrono : Chrono.DateParser} now content c :
  p_billingCycle (extractSubscriptionData now content) = Some c ->
  In c (List.map js ["month"; "quarter"; "annual"; "year"; "week"]%string).
Proof.
  unfold extractSubscriptionData. cbn [p_billingCycle].
  destruct (List.find _ cyclePatterns) as [p|] eqn:Hfind; [|discriminate].
  apply find_some in Hfind as [Hin _].
  intros [= <-].
  repeat (destruct Hin as [<-|Hin]; [vm_compute; tauto|]). destruct Hin.
Qed.

(** The billing cycle is absent exactly when no keyword is found, and
    is never a value of the schema. *)
Lemma billingCycle_absent_or_outside_enum `{chrono : Chrono.DateParser} now content :
  (p_billingCycle (extractSubscriptionData now content) = None
   <-> existsb (fun pattern => test pattern content) cyclePatterns = false)
  /\ forall c, p_billingCycle (extractSubscriptionData now content) = Some c ->
               ~ In c Validations.billingCycle_enum.
Proof.
  split.
  - unfold extractSubscriptionData. cbn [p_billingCycle].
    destruct (List.find _ cyclePatterns) as [p|] eqn:Hfind.
    + apply find_some in Hfind as [Hin Hp].
      split; [intros Hd; discriminate Hd|]. intros Hnone.
      assert (Hex : existsb (fun pattern => test pattern content) cyclePatterns = true)
        by (apply existsb_exists; eauto).
      rewrite Hex in Hnone. discriminate Hnone.
    + split; [intros _|reflexivity].
      destruct (existsb _ cyclePatterns) eqn:Hex; [|reflexivity].
      apply existsb_exists in Hex as (p & Hin & Hp).
      now rewrite (find_none _ _ Hfind p Hin) in Hp.
  - intros c Hc Hin. apply billingCycle_values in Hc.
    revert Hin. vm_compute in Hc. vm_compute.
    intuition (subst; discriminate).
Qed.

(** C8, at a failing input. The renewal notice that says "billed $15.99
    monthly" is detected with the billing cycle "month", which is none
    of weekly, monthly, quarterly, semi-annually and annually. *)
Theorem C8_billing_cycle_outside_enum :
  List.map billingCycle
    (parseEmail (chrono := MonthDayYear.month_day_year) new_year_2025 netflix_monthly)
  = [Some (js "month")]
  /\ ~ In (js "month") Validations.billingCycle_enum.
Proof.
  split.
  - vm_compute. reflexivity.
  - vm_compute. intuition discriminate.
Qed.

Section EmptyMessages.
Context `{chrono : Chrono.DateParser}.

Lemma no_content_blank m :
  no_content m = true -> getEmailContent m = js "  ".
Proof.
  unfold no_content, getEmailContent.
  destruct (subject m); [|discriminate].
  destruct (bodyText m) as [[|? ?]|], (bodyHtml m) as [[|? ?]|];
    simpl; try discriminate; reflexivity.
Qed.

Lemma detect_blank now t name : detect now t (js "  ") name = None.
Proof.
  unfold detect.
  assert (Hno : existsb (fun pattern => test pattern (js "  ")) (patterns_of t) = false)
    by (destruct t; vm_compute; reflexivity).
  now rewrite Hno.
Qed.

(** C5, as the code has it. For a message whose subject, text body and
    HTML body are all empty or missing, the call raises no error: the
    promise of [parseEmail] resolves with the empty list of detections. *)
Theorem C5_no_content_resolves_empty (now : timestamp) (m : EmailData) :
  no_content m = true -> parseEmail_settled now m = Resolved [].
Proof.
  intros Hm. unfold parseEmail_settled, parseEmail.
  rewrite (no_content_blank m Hm).
  destruct (isSpamEmail _ _); [reflexivity|].
  destruct (extractServiceName _ _) as [[|c name]|];
    [reflexivity| |reflexivity].
  unfold detectTrialSignup, detectTrialReminder, detectBillingConfirmation,
    detectSubscriptionStart, detectPriceChange.
  rewrite !detect_blank. reflexivity.
Qed.

(** The module-level parser does throw on an email without subject and
    body. *)
Lemma parseSubscriptionEmail_invalid now (email : EmailParserJs.Email) :
  EmailParserJs.falsy (EmailParserJs.subject email) = true ->
  EmailParserJs.falsy (EmailParserJs.body email) = true ->
  EmailParserJs.parseSubscriptionEmail now email
  = EmailParserJs.throw EmailParserJs.InvalidEmailObject.
Proof.
  intros Hs Hb. unfold EmailParserJs.parseSubscriptionEmail.
  now rewrite Hs, Hb.
Qed.

End EmptyMessages.

Lemma C5_no_content_resolves_empty_witness :
  parseEmail_settled (chrono := MonthDayYear.month_day_year) new_year_2025 empty_message
  = Resolved [].
Proof.
  apply (C5_no_content_resolves_empty (chrono := MonthDayYear.month_day_year)).
  vm_compute. reflexivity.
Defined.

(** C5, as the claim states it, fails: the call on the message without
    content is not rejected with an error. *)
Lemma C5_empty_message_not_rejected :
  no_content empty_message = true
  /\ ~ exists error,
        parseEmail_settled (chrono := MonthDayYear.month_day_year) new_year_2025 empty_message
        = Rejected error.
Proof.
  split; [vm_compute; reflexivity|].
  intros [error Herr]. discriminate Herr.
Qed.

(* ================================================================== *)
(** ** The trial end date *)
(* ================================================================== *)

(** The head of a filtered list is the first element that passes. *)
Lemma filter_head_first {A} (f : A -> bool) (l : list A) d rest :
  List.filter f l = d :: rest ->
  exists before after,
    l = before ++ d :: after /\ f d = true
    /\ Forall (fun x => f x = false) before.
Proof.
  induction l as [|a l IH]; simpl; [discriminate|].
  destruct (f a) eqn:Ha.
  - intros [= -> <-]. exists [], l. repeat split; auto.
  - intros Hf. destruct (IH Hf) as (before & after & -> & Hd & Hall).
    exists (a :: before), after. repeat split; auto.
Qed.

Lemma filter_first_head {A} (f : A -> bool) (before after : list A) d :
  f d = true -> Forall (fun x => f x = false) before ->
  exists rest, List.filter f (before ++ d :: after) = d :: rest.
Proof.
  intros Hd Hall. induction Hall as [|a before Ha _ IH]; simpl.
  - rewrite Hd. eauto.
  - rewrite Ha. exact IH.
Qed.

Lemma filter_none {A} (f : A -> bool) (l : list A) :
  List.filter f l = [] <-> Forall (fun x => f x = false) l.
Proof.
  induction l as [|a l IH]; simpl.
  - split; auto.
  - destruct (f a) eqn:Ha.
    + split; [discriminate|]. intros Hall. inversion Hall; congruence.
    + rewrite IH. split; [auto|]. intros Hall. now inversion Hall.
Qed.

Section TrialEndDate.
Context `{chrono : Chrono.DateParser}.

Import EmailParserJs.

(** C7, as the code has it. [extractTrialEndDate] has two strategies, in
    this order: (a) when the text around "trial ... end/expire" exists and
    the date parser finds a date in it, the first date found there;
    (b) otherwise the first date, in the order the date parser returns
    them for the whole content, that is strictly later than the date of
    the email (the current time for an email without one), and nothing
    when there is no such date. *)
Theorem C7_trial_end_date_strategies (now : timestamp) (email : Email) :
  let content := content_of email in
  let window := head (matches trial_end_section content) in
  let reference := default now (date email) in
  (forall w d ds,
      window = Some w -> extractDates (matched w) = d :: ds ->
      extractTrialEndDate now email = Some (ed_date d))
  /\
  ((window = None \/ exists w, window = Some w /\ extractDates (matched w) = []) ->
   (forall t,
       extractTrialEndDate now email = Some t <->
       exists before d after,
         extractDates content = before ++ d :: after
         /\ ed_date d = t /\ (reference < t)%Z
         /\ Forall (fun d' => (ed_date d' <= reference)%Z) before)
   /\ (extractTrialEndDate now email = None <->
       Forall (fun d' => (ed_date d' <= reference)%Z) (extractDates content))).
Proof.
  intros content window reference. subst window.
  unfold extractTrialEndDate. fold content. fold reference.
  set (future := fun d : ExtractedDate => (reference <? ed_date d)%Z).
  assert (Hlate : forall l,
             Forall (fun x => future x = false) l <->
             Forall (fun d' => (ed_date d' <= reference)%Z) l).
  { intros l. rewrite !List.Forall_forall. unfold future.
    split; intros Hl x Hx; specialize (Hl x Hx); lia. }
  split.
  - intros w d ds Hw Hd.
    destruct (matches trial_end_section content) as [|w' ws]; [discriminate|].
    injection Hw as ->. now rewrite Hd.
  - intros Hnone.
    assert (Hsection :
              match matches trial_end_section content with
              | section :: _ =>
                  match extractDates (matched section) with
                  | d :: _ => Some (ed_date d)
                  | [] => None
                  end
              | [] => None
              end = None).
    { destruct Hnone as [Hw|(w & Hw & Hd)];
        destruct (matches trial_end_section content) as [|w' ws];
        try discriminate; auto.
      injection Hw as ->. now rewrite Hd. }
    rewrite Hsection. clear Hsection Hnone. split.
    + intros t. split.
      * destruct (List.filter future (extractDates content)) as [|d rest] eqn:Hf;
          [discriminate|].
        intros [= <-].
        apply filter_head_first in Hf as (before & after & Hsplit & Hd & Hall).
        exists before, d, after. repeat split; auto.
        -- unfold future in Hd. lia.
        -- now apply Hlate.
      * intros (before & d & after & Hsplit & <- & Hd & Hall).
        destruct (filter_first_head future before after d) as [rest Hrest].
        -- unfold future. lia.
        -- now apply Hlate.
        -- rewrite Hsplit, Hrest. reflexivity.
    + rewrite <- Hlate, <- filter_none.
      destruct (List.filter future (extractDates content)); split;
        auto; discriminate.
Qed.

End TrialEndDate.

(** The example of the README: the text around "trial ... end" holds the
    date December 15, 2024, which is returned. *)
Lemma C7_trial_end_date_strategies_witness :
  EmailParserJs.extractTrialEndDate (chrono := MonthDayYear.month_day_year)
    new_year_2026 readme_email
  = Some noon_2024_12_15.
Proof.
  destruct (head (matches EmailParserJs.trial_end_section
                          (EmailParserJs.content_of readme_email)))
    as [w|] eqn:Hw; [|vm_compute in Hw; discriminate Hw].
  destruct (EmailParserJs.extractDates (chrono := MonthDayYear.month_day_year) (matched w))
    as [|d ds] eqn:Hd.
  - vm_compute in Hw. injection Hw as <-. vm_compute in Hd. discriminate Hd.
  - rewrite (proj1 (C7_trial_end_date_strategies (chrono := MonthDayYear.month_day_year)
                      new_year_2026 readme_email) w d ds Hw Hd).
    vm_compute in Hw. injection Hw as <-. vm_compute in Hd.
    injection Hd as <- _. reflexivity.
Defined.

(** C7, as the claim states it, fails: with no text around "trial ...
    end", the date returned for the notice of 2026-01-01 is March 1,
    2026, the first one in the text, though February 1, 2026 is parsed
    too, is later than the email and is earlier than March 1. *)
Lemma C7_first_later_date_not_earliest :
  matches EmailParserJs.trial_end_section (EmailParserJs.content_of two_dates_email) = []
  /\ EmailParserJs.extractTrialEndDate (chrono := MonthDayYear.month_day_year)
       new_year_2026 two_dates_email
     = Some noon_2026_03_01
  /\ In noon_2026_02_01
        (List.map EmailParserJs.ed_date
           (EmailParserJs.extractDates (chrono := MonthDayYear.month_day_year)
              (EmailParserJs.content_of two_dates_email)))
  /\ (default new_year_2026 (EmailParserJs.date two_dates_email)
      < noon_2026_02_01 < noon_2026_03_01)%Z.
Proof.
  split; [vm_compute; reflexivity|].
  split; [vm_compute; reflexivity|].
  split; [vm_compute; auto|].
  vm_compute. split; reflexivity.
Qed.

(* ================================================================== *)
(** ** The amount: mode and median *)
(* ================================================================== *)

Module AmountFacts.

Import EmailParserJs.

Lemma count_snoc (l : list amount) (x v : amount) :
  count (l ++ [x]) v = count l v + (if decide (x = v) then 1 else 0).
Proof.
  rewrite count_occ_app. simpl.
  destruct (N.eq_dec x v), (decide (x = v)); try reflexivity; contradiction.
Qed.

Lemma findMode_loop_snoc l x :
  findMode_loop (l ++ [x]) = findMode_step (findMode_loop l) x.
Proof. unfold findMode_loop. now rewrite foldl_app. Qed.

Lemma findMode_loop_invariant l : mode_invariant l (findMode_loop l).
Proof.
  induction l as [|x l IH] using rev_ind.
  - split; simpl; intros; try rewrite lookup_empty; reflexivity.
  - rewrite findMode_loop_snoc.
    destruct IH as [Hfreq Hmax Hmode].
    set (st := findMode_loop l) in *.
    assert (Hx : S (default 0 (frequency st !! x)) = count (l ++ [x]) x).
    { rewrite Hfreq, count_snoc. destruct (decide (x = x)); [lia|congruence]. }
    assert (Hfreq' : forall v,
               default 0 (<[x := S (default 0 (frequency st !! x))]> (frequency st) !! v)
               = count (l ++ [x]) v).
    { intros v. destruct (decide (x = v)) as [<-|Hne].
      - now rewrite lookup_insert_eq.
      - rewrite lookup_insert_ne by assumption.
        rewrite Hfreq, count_snoc. destruct (decide (x = v)); [congruence|lia]. }
    unfold findMode_step. fold st.
    destruct (decide (maxFreq st < S (default 0 (frequency st !! x)))) as [Hgt|Hle].
    + split; simpl.
      * exact Hfreq'.
      * intros v. rewrite Hx, !count_snoc. specialize (Hmax v).
        rewrite Hfreq in Hgt.
        destruct (decide (x = x)); [|congruence].
        destruct (decide (x = v)) as [<-|Hne]; lia.
      * symmetry. exact Hx.
    + split; simpl.
      * exact Hfreq'.
      * intros v. rewrite count_snoc. specialize (Hmax v).
        rewrite Hfreq in Hle.
        destruct (decide (x = v)) as [<-|Hne]; lia.
      * rewrite Hfreq in Hle.
        destruct (mode st) as [m|]; [|lia].
        rewrite count_snoc. destruct (decide (x = m)) as [->|Hne]; lia.
Qed.

(** [findMode] returns a most frequent value when a value occurs more
    than once. *)
Lemma findMode_some l v :
  1 < count l v ->
  exists m, findMode l = Some m /\ 1 < count l m /\ forall w, count l w <= count l m.
Proof.
  intros Hv. unfold findMode.
  destruct (findMode_loop_invariant l) as [_ Hmax Hmode].
  pose proof (Hmax v) as Hmv.
  destruct (decide (1 < maxFreq (findMode_loop l))) as [_|Hn]; [|lia].
  destruct (mode (findMode_loop l)) as [m|]; [|lia].
  exists m. split; [reflexivity|]. split; [lia|].
  intros w. rewrite Hmode. apply Hmax.
Qed.

(** It returns [null] when no value occurs twice. *)
Lemma findMode_none l :
  (forall v, count l v <= 1) -> findMode l = None.
Proof.
  intros Hall. unfold findMode.
  destruct (findMode_loop_invariant l) as [_ _ Hmode].
  destruct (decide (1 < maxFreq (findMode_loop l))) as [Hgt|]; [|reflexivity].
  destruct (mode (findMode_loop l)) as [m|]; [|lia].
  specialize (Hall m). lia.
Qed.

(** *** The distinct values *)

Lemma unique_from_NoDup (l acc : list amount) :
  NoDup (acc ++ l) -> unique_from acc l = acc ++ l.
Proof.
  revert acc. induction l as [|a l IH]; intros acc Hnd; simpl.
  - now rewrite app_nil_r.
  - destruct (decide (a ∈ acc)) as [Hin|Hout].
    + apply NoDup_app in Hnd as (_ & Hdisj & _).
      exfalso. apply (Hdisj a Hin). left.
    + rewrite IH; rewrite <- app_assoc; [reflexivity|exact Hnd].
Qed.

Lemma unique_from_elem_of (l acc : list amount) x :
  x ∈ unique_from acc l <-> x ∈ acc \/ x ∈ l.
Proof.
  revert acc. induction l as [|a l IH]; intros acc; simpl.
  - rewrite elem_of_nil. tauto.
  - destruct (decide (a ∈ acc)) as [Hin|Hout]; rewrite IH.
    + rewrite elem_of_cons. split; [tauto|].
      intros [Hx|[->|Hx]]; tauto.
    + rewrite elem_of_app, !elem_of_cons, elem_of_nil. tauto.
Qed.

Lemma unique_from_sorted (l acc : list amount) :
  StronglySorted N.le (acc ++ l) -> StronglySorted N.lt acc ->
  StronglySorted N.lt (unique_from acc l).
Proof.
  revert acc. induction l as [|a l IH]; intros acc Hle Hlt; simpl; [exact Hlt|].
  apply StronglySorted_app in Hle as (Hcross & Hacc & Hal).
  apply StronglySorted_cons in Hal as (Ha & Hl).
  destruct (decide (a ∈ acc)) as [Hin|Hout]; apply IH.
  - apply StronglySorted_app_2; [|exact Hacc|exact Hl].
    intros x1 x2 H1 H2. apply Hcross; [exact H1|now right].
  - exact Hlt.
  - rewrite <- app_assoc. apply StronglySorted_app_2; [|exact Hacc|].
    + intros x1 x2 H1 H2. apply Hcross; [exact H1|exact H2].
    + apply StronglySorted_cons. split; [exact Ha|exact Hl].
  - apply StronglySorted_app_2; [|exact Hlt|repeat constructor].
    intros x1 x2 H1 H2. apply list_elem_of_singleton in H2 as ->.
    assert (x1 <= a)%N by (apply Hcross; [exact H1|left]).
    assert (x1 <> a) by (intros ->; contradiction).
    lia.
Qed.

(** The distinct values of a sorted list are the list itself when no
    value repeats. *)
Lemma unique_NoDup l : NoDup l -> unique l = l.
Proof. intros Hnd. unfold unique. now rewrite unique_from_NoDup. Qed.

Lemma unique_elem_of l x : x ∈ unique l <-> x ∈ l.
Proof. unfold unique. rewrite unique_from_elem_of, elem_of_nil. tauto. Qed.

Lemma sort_ascending_sorted l : StronglySorted N.le (sort_ascending l).
Proof. apply StronglySorted_merge_sort; apply _. Qed.

Lemma sort_ascending_perm l : sort_ascending l ≡ₚ l.
Proof. apply merge_sort_Permutation. Qed.

Lemma sort_ascending_count l v : count (sort_ascending l) v = count l v.
Proof. apply Permutation_count_occ, sort_ascending_perm. Qed.

(** The sorted distinct amounts: in strictly ascending order, with the
    values of the list. *)
Lemma unique_sort_spec l :
  StronglySorted N.lt (unique (sort_ascending l))
  /\ forall v, In v (unique (sort_ascending l)) <-> In v l.
Proof.
  split.
  - unfold unique. apply unique_from_sorted; [|constructor].
    apply sort_ascending_sorted.
  - intros v. rewrite <- !list_elem_of_In, unique_elem_of.
    now rewrite sort_ascending_perm.
Qed.

(** *** The median *)

Lemma filter_all {A} (f : A -> bool) (l : list A) :
  (forall x, x ∈ l -> f x = true) -> List.filter f l = l.
Proof.
  intros Hall. apply forallb_filter_id, forallb_forall.
  intros x Hx. apply Hall. now apply list_elem_of_In.
Qed.

(** The value in the middle of a sorted list is a median of it. *)
Lemma sorted_middle_is_median (l : list amount) (m : amount) :
  StronglySorted N.le l -> l !! (length l / 2) = Some m -> is_median m l.
Proof.
  intros Hsorted Hm.
  pose proof (take_drop_middle l _ m Hm) as Hsplit.
  pose proof (lookup_lt_Some _ _ _ Hm) as Hlt.
  set (k := length l / 2) in *.
  assert (Hk : 2 * k <= length l) by (subst k; apply Nat.Div0.mul_div_le).
  assert (Hk' : length l < 2 * k + 2).
  { subst k. pose proof (Nat.div_mod_eq (length l) 2).
    pose proof (Nat.mod_upper_bound (length l) 2). lia. }
  rewrite <- Hsplit in Hsorted.
  apply StronglySorted_app in Hsorted as (Hcross & _ & Hright).
  apply StronglySorted_cons in Hright as (Hright & _).
  rewrite Forall_forall in Hright.
  assert (Hlen1 : length (take k l) = k) by (rewrite length_take; lia).
  assert (Hlen2 : length (drop (S k) l) = length l - S k) by apply length_drop.
  split; [|split].
  - apply list_elem_of_In. eapply list_elem_of_lookup_2, Hm.
  - rewrite <- Hsplit at 2. rewrite List.filter_app. simpl.
    rewrite N.leb_refl, filter_all.
    + rewrite length_app. simpl. lia.
    + intros x Hx. apply N.leb_le, Hcross; [exact Hx|left].
  - rewrite <- Hsplit at 2. rewrite List.filter_app. simpl.
    rewrite N.leb_refl. rewrite (filter_all _ (drop (S k) l)).
    + rewrite length_app. simpl. lia.
    + intros x Hx. apply N.leb_le, Hright, Hx.
Qed.

(** *** What the patterns find *)

Lemma pattern_amounts_positive pattern content a :
  a ∈ pattern_amounts pattern content -> (0 < a)%N.
Proof.
  unfold pattern_amounts. rewrite list_elem_of_omap.
  intros (m & _ & Hm).
  destruct (parseFloat _) as [a'|]; [|discriminate].
  destruct (in_range a') eqn:Hr; [|discriminate].
  injection Hm as <-. unfold in_range in Hr.
  apply andb_prop in Hr as [Hr _]. now apply N.ltb_lt.
Qed.

Lemma found_amounts_positive email a :
  In a (found_amounts email) -> (0 < a)%N.
Proof.
  unfold found_amounts. rewrite in_flat_map.
  intros (pattern & _ & Ha).
  eapply pattern_amounts_positive. apply list_elem_of_In, Ha.
Qed.

End AmountFacts.

Import EmailParserJs AmountFacts.

(** C6. With [amounts] the in-range amounts the patterns find in the
    content and [distinct] the sorted distinct values among them (in
    strictly ascending order): none found, the result is absent; one
    distinct value, it is returned; two or more distinct values and a
    value found more than once, a most frequent value is returned;
    two or more distinct values and none found twice, the value in the
    middle of [distinct] is returned, which is a median of it. *)
Theorem C6_amount_mode_or_median (email : Email) :
  let amounts := found_amounts email in
  let distinct := unique (sort_ascending amounts) in
  (StronglySorted N.lt distinct /\ forall v, In v distinct <-> In v amounts)
  /\ (amounts = [] -> extractAmount email = None)
  /\ (forall a, distinct = [a] -> extractAmount email = Some a)
  /\ (2 <= length distinct ->
      (exists v, 1 < count amounts v) ->
      exists m, extractAmount email = Some m
                /\ 1 < count amounts m
                /\ forall v, count amounts v <= count amounts m)
  /\ (2 <= length distinct ->
      (forall v, count amounts v <= 1) ->
      exists m, extractAmount email = Some m
                /\ distinct !! (length distinct / 2) = Some m
                /\ is_median m distinct).
Proof.
  intros amounts distinct.
  pose proof (found_amounts_positive email) as Hpos. fold amounts in Hpos.
  unfold extractAmount. fold amounts. fold distinct.
  assert (Hempty : amounts = [] -> distinct = []).
  { intros E. subst distinct. rewrite E. reflexivity. }
  split; [apply unique_sort_spec|].
  split; [|split; [|split]].
  - intros E. now rewrite E.
  - intros a Ha. destruct amounts as [|x l] eqn:E.
    + rewrite Hempty in Ha by reflexivity. discriminate Ha.
    + now rewrite Ha.
  - intros Hlen [v Hv].
    destruct (findMode_some (sort_ascending amounts) v) as (m & Hm & Hm1 & Hmax).
    { now rewrite sort_ascending_count. }
    rewrite sort_ascending_count in Hm1.
    assert (Hm0 : (m =? 0)%N = false).
    { apply N.eqb_neq. intros ->.
      assert (0 < 0)%N; [|lia].
      apply Hpos, (count_occ_In N.eq_dec). lia. }
    exists m. split; [|split; [exact Hm1|]].
    + destruct amounts as [|x l] eqn:E; [simpl in Hv; lia|].
      destruct distinct as [|a [|b t]]; simpl in Hlen; try lia.
      now rewrite Hm, Hm0.
    + intros w. specialize (Hmax w). now rewrite !sort_ascending_count in Hmax.
  - intros Hlen Hone.
    assert (Hnd : NoDup (sort_ascending amounts)).
    { apply NoDup_ListNoDup, (NoDup_count_occ N.eq_dec).
      intros v. rewrite sort_ascending_count. apply Hone. }
    assert (Hd : distinct = sort_ascending amounts) by now apply unique_NoDup.
    assert (Hnone : findMode (sort_ascending amounts) = None).
    { apply findMode_none. intros v. rewrite sort_ascending_count. apply Hone. }
    destruct (lookup_lt_is_Some_2 distinct (length distinct / 2)) as [m Hm].
    { apply Nat.div_lt; lia. }
    exists m. split; [|split; [exact Hm|]].
    + destruct amounts as [|x l] eqn:E.
      * rewrite Hempty in Hlen by reflexivity. simpl in Hlen. lia.
      * rewrite Hnone. rewrite <- Hd.
        destruct distinct as [|a [|b t]]; simpl in Hlen; try lia.
        exact Hm.
    + apply sorted_middle_is_median; [|exact Hm].
      rewrite Hd. apply sort_ascending_sorted.
Qed.

(** An email that quotes $9.99 twice and $19.99 once: 9.99 is
    returned. *)
Lemma C6_amount_mode_or_median_witness :
  exists m, extractAmount two_prices_email = Some m
            /\ 1 < count (found_amounts two_prices_email) m
            /\ forall v, count (found_amounts two_prices_email) v
                         <= count (found_amounts two_prices_email) m.
Proof.
  apply (proj1 (proj2 (proj2 (proj2 (C6_amount_mode_or_median two_prices_email))))).
  - vm_compute. lia.
  - exists 999%N. vm_compute. lia.
Defined.

(** What the extractor returns on the two emails. *)
Lemma extractAmount_examples :
  extractAmount two_prices_email = Some 999%N
  /\ extractAmount discount_email = Some 1000%N.
Proof. split; vm_compute; reflexivity. Qed.

(* ================================================================== *)
(** ** Matching in a longer text *)
(* ================================================================== *)

(** A pattern without anchors that matches somewhere in a text matches in
    every text that contains it: text added before or after takes no
    signal away. *)
Module RegexFacts.

Lemma one_extend st1 st2 ok x st1' :
  rest st2 = rest st1 ++ x ->
  In st1' (one st1 ok) ->
  exists st2', In st2' (one st2 ok) /\ rest st2' = rest st1' ++ x.
Proof.
  unfold one. intros Hrest.
  destruct (rest st1) as [|c t]; [intros []|].
  rewrite Hrest. simpl.
  destruct (ok c); [|intros []].
  intros [<-|[]]. exists (advance st2 (t ++ x)). split; [now left|reflexivity].
Qed.

Section RepeatExtend.
Variable step : mstate -> list mstate.
Variable x : jsstring.
Hypothesis step_extend :
  forall st1 st2 st1',
    rest st2 = rest st1 ++ x ->
    In st1' (step st1) ->
    exists st2', In st2' (step st2) /\ rest st2' = rest st1' ++ x.

Lemma repeat_stop fuel hi st : In st (repeat step fuel 0 hi st).
Proof. destruct fuel; simpl; [now left|]. apply in_or_app. right. now left. Qed.

Lemma repeat_extend fuel1 :
  forall fuel2 lo hi st1 st2 st1',
    fuel1 <= fuel2 ->
    rest st2 = rest st1 ++ x ->
    In st1' (repeat step fuel1 lo hi st1) ->
    exists st2', In st2' (repeat step fuel2 lo hi st2) /\ rest st2' = rest st1' ++ x.
Proof.
  induction fuel1 as [|f1 IH]; intros fuel2 lo hi st1 st2 st1' Hfuel Hrest Hin.
  - simpl in Hin. destruct (decide (lo = 0)) as [->|]; [|destruct Hin].
    destruct Hin as [<-|[]]. exists st2. split; [apply repeat_stop|exact Hrest].
  - destruct fuel2 as [|f2]; [lia|].
    simpl in Hin. apply in_app_or in Hin as [Hin|Hin].
    + destruct (decide (hi = Some 0)) as [|Hhi]; [destruct Hin|].
      apply in_flat_map in Hin as (mid1 & Hmid1 & Hin).
      destruct (decide (length (rest mid1) < length (rest st1))) as [Hlt|];
        [|destruct Hin].
      destruct (step_extend st1 st2 mid1 Hrest Hmid1) as (mid2 & Hmid2 & Hrest2).
      destruct (IH f2 (pred lo) (pred <$> hi) mid1 mid2 st1' ltac:(lia) Hrest2 Hin)
        as (st2' & Hin2 & Hrest').
      exists st2'. split; [|exact Hrest'].
      simpl. apply in_or_app. left.
      destruct (decide (hi = Some 0)); [contradiction|].
      apply in_flat_map. exists mid2. split; [exact Hmid2|].
      destruct (decide (length (rest mid2) < length (rest st2))) as [|Hge];
        [exact Hin2|].
      exfalso. apply Hge. rewrite Hrest, Hrest2, !length_app. lia.
    + destruct (decide (lo = 0)) as [->|]; [|destruct Hin].
      destruct Hin as [<-|[]]. exists st2. split; [apply repeat_stop|exact Hrest].
Qed.

End RepeatExtend.

Lemma run_extend ic r x :
  anchor_free r = true ->
  forall st1 st2 st1',
    rest st2 = rest st1 ++ x ->
    In st1' (run ic r st1) ->
    exists st2', In st2' (run ic r st2) /\ rest st2' = rest st1' ++ x.
Proof.
  induction r as [c| |neg items|r1 IH1 r2 IH2|r1 IH1 r2 IH2|r IH lo hi|r IH| | | |];
    cbn [run anchor_free]; intros Hfree st1 st2 st1' Hrest Hin;
    try discriminate Hfree; try (now apply (one_extend st1 st2 _ x)).
  - apply andb_prop in Hfree as [H1 H2].
    apply in_flat_map in Hin as (mid1 & Hmid1 & Hin).
    destruct (IH1 H1 _ _ _ Hrest Hmid1) as (mid2 & Hmid2 & Hrest2).
    destruct (IH2 H2 _ _ _ Hrest2 Hin) as (st2' & Hin2 & Hrest').
    exists st2'. split; [|exact Hrest'].
    apply in_flat_map. eauto.
  - apply andb_prop in Hfree as [H1 H2].
    apply in_app_or in Hin as [Hin|Hin].
    + destruct (IH1 H1 _ _ _ Hrest Hin) as (st2' & Hin2 & Hrest').
      exists st2'. split; [apply in_or_app; now left|exact Hrest'].
    + destruct (IH2 H2 _ _ _ Hrest Hin) as (st2' & Hin2 & Hrest').
      exists st2'. split; [apply in_or_app; now right|exact Hrest'].
  - eapply (repeat_extend (run ic r) x (IH Hfree)); [|exact Hrest|exact Hin].
    rewrite Hrest, length_app. lia.
  - apply in_map_iff in Hin as (mid1 & <- & Hmid1).
    destruct (IH Hfree _ _ _ Hrest Hmid1) as (mid2 & Hmid2 & Hrest2).
    eexists. split; [apply in_map_iff; eexists; split; [reflexivity|exact Hmid2]|].
    exact Hrest2.
  - destruct Hin as [<-|[]]. exists st2. split; [now left|exact Hrest].
  - destruct Hin.
Qed.

Lemma match_at_Some p i s :
  (exists m, match_at p i s = Some m) <-> matches_at p i s.
Proof.
  unfold match_at, matches_at. destruct (run _ _ _); split.
  - intros [m Hm]. discriminate Hm.
  - intros Hne. now contradiction Hne.
  - discriminate.
  - eauto.
Qed.

Lemma matches_at_extend p i j s x :
  anchor_free (ast p) = true ->
  matches_at p i s -> matches_at p j (s ++ x).
Proof.
  unfold matches_at. intros Hfree Hne.
  destruct (run _ _ {| pos := i; group1 := None; rest := s |}) as [|st1' l] eqn:Hrun;
    [now contradiction Hne|].
  destruct (run_extend (ignoreCase p) (ast p) x Hfree
              {| pos := i; group1 := None; rest := s |}
              {| pos := j; group1 := None; rest := s ++ x |} st1' eq_refl)
    as (st2' & Hin & _).
  - rewrite Hrun. now left.
  - intros Hnil. rewrite Hnil in Hin. destruct Hin.
Qed.

(** [test] finds a match at the start of some suffix of the text. *)
Lemma search_from_Some p s :
  forall i, (exists m, search_from p i s = Some m) ->
            exists k, k <= length s /\ matches_at p (i + k) (drop k s).
Proof.
  induction s as [|c t IH]; intros i [m Hm]; simpl in Hm.
  - exists 0. split; [lia|]. rewrite Nat.add_0_r. cbn [drop].
    apply match_at_Some.
    destruct (match_at p i []) as [m'|]; [eauto|discriminate Hm].
  - destruct (match_at p i (c :: t)) as [m'|] eqn:Hhere.
    + exists 0. split; [lia|]. rewrite Nat.add_0_r. cbn [drop].
      apply match_at_Some. eauto.
    + destruct (IH (S i) (ex_intro _ m Hm)) as (k & Hk & Hmatch).
      exists (S k). split; [simpl; lia|].
      replace (i + S k) with (S i + k) by lia. exact Hmatch.
Qed.

Lemma search_from_suffix p s :
  forall i k, k <= length s -> matches_at p (i + k) (drop k s) ->
              exists m, search_from p i s = Some m.
Proof.
  induction s as [|c t IH]; intros i k Hk Hmatch.
  - simpl in Hk. assert (k = 0) as -> by lia.
    rewrite Nat.add_0_r in Hmatch. cbn [drop] in Hmatch.
    apply match_at_Some in Hmatch as [m Hm].
    exists m. simpl. now rewrite Hm.
  - simpl. destruct (match_at p i (c :: t)) as [m'|] eqn:Hhere; [eauto|].
    destruct k as [|k].
    + rewrite Nat.add_0_r in Hmatch. cbn [drop] in Hmatch.
      apply match_at_Some in Hmatch as [m Hm]. congruence.
    + apply (IH (S i) k); [simpl in Hk; lia|].
      replace (S i + k) with (i + S k) by lia. exact Hmatch.
Qed.

(** A match in [s] is a match in [before ++ s ++ after]. *)
Theorem test_extend p before s after :
  anchor_free (ast p) = true ->
  test p s = true -> test p (before ++ s ++ after) = true.
Proof.
  intros Hfree. unfold test, search.
  destruct (search_from p 0 s) as [m|] eqn:Hs; [intros _|discriminate].
  destruct (search_from_Some p s 0 (ex_intro _ m Hs)) as (k & Hk & Hmatch).
  destruct (search_from_suffix p (before ++ s ++ after) 0 (length before + k))
    as [m' ->]; [rewrite !length_app; lia| |reflexivity].
  rewrite drop_app_add', drop_app_le by (reflexivity || exact Hk).
  now apply (matches_at_extend p (0 + k)).
Qed.

End RegexFacts.

Import EmailSubscriptionParser.

(** They are read from their source in full and have no anchor. *)
Lemma scorer_patterns_anchor_free p :
  In p scorer_patterns -> well_formed p = true /\ anchor_free (ast p) = true.
Proof.
  assert (Hall : forallb (fun p => well_formed p && anchor_free (ast p))
                         scorer_patterns = true) by (vm_compute; reflexivity).
  rewrite forallb_forall in Hall.
  intros Hp. apply andb_prop, Hall, Hp.
Qed.

Lemma patterns_of_scorer t p : In p (patterns_of t) -> In p scorer_patterns.
Proof.
  unfold scorer_patterns. intros Hp. rewrite !in_app_iff.
  destruct t; cbn [patterns_of] in Hp;
    [ left | right; left | do 2 right; left | do 3 right; left | do 4 right; left ];
    exact Hp.
Qed.

Lemma mentioned_in_scorer p :
  In p [cost_mentioned; cycle_mentioned; date_mentioned] -> In p scorer_patterns.
Proof.
  unfold scorer_patterns. intros Hp. rewrite !in_app_iff.
  do 5 right. exact Hp.
Qed.

(** Text added before and after a content never lowers its confidence,
    for any detection type. *)
Corollary confidence_monotone_in_content (before c after : jsstring) (t : DetectionType) :
  le (calculateConfidence c t) (calculateConfidence (before ++ c ++ after) t).
Proof.
  apply calculateConfidence_mono.
  - intros p Hp. apply RegexFacts.test_extend.
    apply scorer_patterns_anchor_free, (patterns_of_scorer t), Hp.
  - apply RegexFacts.test_extend, scorer_patterns_anchor_free, mentioned_in_scorer.
    left. reflexivity.
  - apply RegexFacts.test_extend, scorer_patterns_anchor_free, mentioned_in_scorer.
    right. left. reflexivity.
  - apply RegexFacts.test_extend, scorer_patterns_anchor_free, mentioned_in_scorer.
    right. right. left. reflexivity.
Qed.

(* ================================================================== *)
(** ** The class: which detections a message gets *)
(* ================================================================== *)

Section ClassPipeline.
Context `{chrono : Chrono.DateParser}.

Import EmailSubscriptionParser.

(** A message whose sender's domain, the text after the first [@], holds
    the name of a disposable-mailbox service in any letter case gets no
    detection, whatever it says. *)
Theorem disposable_sender_no_detections
  (now : timestamp) (m : EmailData) (domain suspicious : jsstring) :
  sender_domain (from m) = Some domain ->
  In suspicious suspiciousDomains ->
  includes (toLowerCase domain) suspicious = true ->
  parseEmail now m = [].
Proof.
  intros Hdomain Hin Hinc. unfold parseEmail.
  assert (Hspam : isSpamEmail (getEmailContent m) (from m) = true).
  { unfold isSpamEmail.
    destruct (existsb _ SPAM_PATTERNS); [reflexivity|].
    apply existsb_exists. exists suspicious. split; [exact Hin|].
    rewrite Hdomain. exact Hinc. }
  now rewrite Hspam.
Qed.

Lemma detect_type now t content name :
  match detect now t content name with
  | Some x => [detectionType x]
  | None => []
  end = if candidate content t then [t] else [].
Proof. unfold detect, candidate. destruct (existsb _ _); reflexivity. Qed.

(** The detection types of a message: none for spam or an unresolved
    service name, and otherwise the types with a matching pattern, each
    once, in the order trial_signup, trial_reminder,
    billing_confirmation, subscription_start, price_change. *)
Theorem detected_types (now : timestamp) (m : EmailData) :
  List.map detectionType (parseEmail now m)
  = if isSpamEmail (getEmailContent m) (from m) then []
    else match extractServiceName (from m) (getEmailContent m) with
         | Some (_ :: _) => List.filter (candidate (getEmailContent m)) detection_types
         | _ => []
         end.
Proof.
  unfold parseEmail.
  destruct (isSpamEmail _ _); [reflexivity|].
  destruct (extractServiceName _ _) as [[|c name]|]; [reflexivity| |reflexivity].
  unfold detectTrialSignup, detectTrialReminder, detectBillingConfirmation,
    detectSubscriptionStart, detectPriceChange.
  rewrite !map_push_if, !detect_type.
  unfold detection_types. cbn [List.filter List.map app].
  destruct (candidate _ trial_signup), (candidate _ trial_reminder),
    (candidate _ billing_confirmation), (candidate _ subscription_start),
    (candidate _ price_change); reflexivity.
Qed.





(** Two calls at different times differ in the trial end dates of their
    detections at most: the same detections, in the same order, with
    every other field the same. *)
Theorem clock_reaches_trial_end_date_only (now1 now2 : timestamp) (m : EmailData) :
  List.map without_trialEndDate (parseEmail now1 m)
  = List.map without_trialEndDate (parseEmail now2 m).
Proof.
  unfold parseEmail.
  destruct (isSpamEmail _ _); [reflexivity|].
  destruct (extractServiceName _ _) as [[|c name]|]; [reflexivity| |reflexivity].
  unfold detectTrialSignup, detectTrialReminder, detectBillingConfirmation,
    detectSubscriptionStart, detectPriceChange.
  rewrite !map_push_if, !(detect_clock now1 now2). reflexivity.
Qed.

Lemma surround_content before after m :
  getEmailContent (surround before after m)
  = before ++ getEmailContent m ++ after.
Proof.
  unfold getEmailContent, surround. cbn [subject bodyText bodyHtml default].
  now rewrite <- !app_assoc.
Qed.

Lemma spam_patterns_anchor_free p :
  In p SPAM_PATTERNS -> anchor_free (ast p) = true.
Proof.
  assert (Hall : forallb (fun p => anchor_free (ast p)) SPAM_PATTERNS = true)
    by (vm_compute; reflexivity).
  rewrite forallb_forall in Hall. apply Hall.
Qed.

Lemma isSpamEmail_extend before content after sender :
  isSpamEmail content sender = true ->
  isSpamEmail (before ++ content ++ after) sender = true.
Proof.
  unfold isSpamEmail.
  destruct (existsb (fun pattern => test pattern content) SPAM_PATTERNS) eqn:Hpat.
  - intros _. apply existsb_exists in Hpat as (p & Hp & Htest).
    assert (Hpat' : existsb
                      (fun pattern => test pattern (before ++ content ++ after))
                      SPAM_PATTERNS = true).
    { apply existsb_exists. exists p. split; [exact Hp|].
      apply RegexFacts.test_extend; [now apply spam_patterns_anchor_free|exact Htest]. }
    now rewrite Hpat'.
  - intros Hdomain.
    destruct (existsb (fun pattern => test pattern (before ++ content ++ after))
                      SPAM_PATTERNS); [reflexivity|exact Hdomain].
Qed.

(** Text put before the subject and after the HTML body of a spam
    message leaves it spam: it still gets no detection. *)
Theorem spam_stays_spam
  (now : timestamp) (m : EmailData) (before after : jsstring) :
  isSpamEmail (getEmailContent m) (from m) = true ->
  parseEmail now (surround before after m) = [].
Proof.
  intros Hspam. unfold parseEmail.
  rewrite surround_content. cbn [from surround].
  now rewrite (isSpamEmail_extend before _ after _ Hspam).
Qed.

End ClassPipeline.

Lemma disposable_sender_no_detections_witness :
  parseEmail (chrono := MonthDayYear.month_day_year) new_year_2025
    (message "billing@mail.TempMail.org"
             "Your Netflix subscription has been renewed" None)
  = [].
Proof.
  apply (disposable_sender_no_detections (chrono := MonthDayYear.month_day_year)
           _ _ (js "mail.TempMail.org") (js "tempmail")).
  - vm_compute. reflexivity.
  - vm_compute. auto.
  - vm_compute. reflexivity.
Defined.


Lemma spam_stays_spam_witness :
  parseEmail (chrono := MonthDayYear.month_day_year) new_year_2025
    (surround (js "Re: ") (js " Your Netflix subscription has been renewed") promotion)
  = [].
Proof.
  apply (spam_stays_spam (chrono := MonthDayYear.month_day_year)).
  vm_compute. reflexivity.
Defined.

(* ================================================================== *)
(** ** The route: what is stored for a detection *)
(* ================================================================== *)



Section StoredDetections.
Context `{chrono : Chrono.DateParser}.

Import EmailRoute.


End StoredDetections.


(* ================================================================== *)
(** ** The module-level parser: types, errors, amounts, dates *)
(* ================================================================== *)

Module LegacyFacts.

Import EmailParserJs AmountFacts.

Lemma count_loop content (patterns : list RegExp) (n : nat) :
  foldl (fun matches pattern => if test pattern content then S matches else matches)
        n patterns
  = n + length (List.filter (fun pattern => test pattern content) patterns).
Proof.
  revert n. induction patterns as [|p ps IH]; intros n; simpl; [lia|].
  rewrite IH. destruct (test p content); simpl; lia.
Qed.

Lemma count_table content (table : list (EmailType * list RegExp)) (n : nat) :
  foldl (fun matches '(_, patterns) =>
           foldl (fun matches pattern =>
                    if test pattern content then S matches else matches)
                 matches patterns)
        n table
  = n + length (List.filter (fun pattern => test pattern content)
                            (flat_map snd table)).
Proof.
  revert n. induction table as [|[t ps] table IH]; intros n; [simpl; lia|].
  cbn [foldl flat_map snd]. rewrite IH, count_loop, List.filter_app, length_app. lia.
Qed.

(** [countPatternMatches] counts the patterns that match. *)
Lemma countPatternMatches_length email :
  countPatternMatches email = length (matching_patterns (content_of email)).
Proof. unfold countPatternMatches, matching_patterns. now rewrite count_table. Qed.

Lemma filter_nil_existsb {A} (f : A -> bool) (l : list A) :
  List.filter f l = [] <-> existsb f l = false.
Proof.
  induction l as [|a l IH]; simpl; [tauto|].
  destruct (f a); simpl; [split; discriminate|exact IH].
Qed.

Lemma table_type_unknown content (table : list (EmailType * list RegExp)) :
  Forall (fun entry => fst entry <> unknown) table ->
  (fix entries (l : list (EmailType * list RegExp)) : EmailType :=
     match l with
     | [] => unknown
     | (type, patterns) :: l' =>
         if existsb (fun pattern => test pattern content) patterns
         then type
         else entries l'
     end) table = unknown
  <-> List.filter (fun pattern => test pattern content) (flat_map snd table) = [].
Proof.
  induction 1 as [|[t ps] table Ht _ IH]; [simpl; tauto|].
  cbn [flat_map snd fst] in *. rewrite List.filter_app.
  destruct (existsb _ ps) eqn:Hex.
  - split; [contradiction|]. intros Hnil.
    apply app_eq_nil in Hnil as [Hnil _].
    apply filter_nil_existsb in Hnil. congruence.
  - apply filter_nil_existsb in Hex. rewrite Hex. exact IH.
Qed.

(** The type of an email is unknown exactly when [countPatternMatches]
    counts no pattern; with a known type a pattern of the table
    matches. *)
Theorem unknown_type_iff_no_match (email : Email) :
  detectEmailType email = unknown <-> countPatternMatches email = 0.
Proof.
  rewrite countPatternMatches_length. unfold detectEmailType, matching_patterns.
  rewrite table_type_unknown.
  - split; [intros ->; reflexivity|].
    destruct (List.filter _ _); [reflexivity|discriminate].
  - unfold SUBSCRIPTION_PATTERNS.
    repeat (constructor; [cbn [fst]; discriminate|]). constructor.
Qed.

(** [extractServiceName] gives a name, or throws a type error on an
    email without a subject. *)
Lemma extractServiceName_cases (email : Email) :
  (exists name, extractServiceName email = ok name)
  \/ (extractServiceName email = throw TypeError /\ subject email = None).
Proof.
  unfold extractServiceName.
  destruct (first_capture _ _); [eauto|].
  destruct (_ && _); [eauto|].
  destruct (subject email); [|auto].
  destruct (List.find _ _); eauto.
Qed.

Section Parsing.
Context `{chrono : Chrono.DateParser}.

(** When [parseSubscriptionEmail] throws: the error for an invalid email
    object exactly when subject and body are both empty or missing; a
    type error only for an email without a subject; and no error for an
    email with a subject, when the subject or the body is not empty. *)
Theorem parseSubscriptionEmail_errors (now : timestamp) (email : Email) :
  (parseSubscriptionEmail now email = throw InvalidEmailObject
   <-> falsy (subject email) = true /\ falsy (body email) = true)
  /\ (parseSubscriptionEmail now email = throw TypeError ->
      subject email = None /\ falsy (body email) = false)
  /\ (forall s, subject email = Some s ->
                s <> [] \/ falsy (body email) = false ->
                exists parsed, parseSubscriptionEmail now email = ok parsed).
Proof.
  pose proof (extractServiceName_cases email) as Hname.
  unfold parseSubscriptionEmail.
  destruct (falsy (subject email) && falsy (body email)) eqn:Hboth.
  - apply andb_prop in Hboth as [Hs Hb].
    split; [tauto|]. split; [intros Herr; discriminate Herr|].
    intros s Hsome [Hne|Hbody]; [|congruence].
    rewrite Hsome in Hs. destruct s; [contradiction|discriminate Hs].
  - assert (Hnot : ~ (falsy (subject email) = true /\ falsy (body email) = true)).
    { intros [Hs Hb]. rewrite Hs, Hb in Hboth. discriminate Hboth. }
    destruct Hname as [[name ->]|[-> Hnone]]; unfold bind, throw, ok.
    + split; [split; [discriminate|contradiction]|].
      split; [discriminate|]. eauto.
    + split; [split; [discriminate|contradiction]|].
      split.
      * intros _. split; [exact Hnone|].
        rewrite Hnone in Hboth. exact Hboth.
      * intros s Hsome. congruence.
Qed.

(** The date found is a date the date parser returned, for the text
    around the end of the trial or for the whole content. *)
Theorem trial_end_date_is_parsed (now : timestamp) (email : Email) (t : timestamp) :
  extractTrialEndDate now email = Some t ->
  (exists w, head (matches trial_end_section (content_of email)) = Some w
             /\ In t (List.map ed_date (extractDates (matched w))))
  \/ In t (List.map ed_date (extractDates (content_of email))).
Proof.
  unfold extractTrialEndDate.
  destruct (matches trial_end_section (content_of email)) as [|w ws].
  - destruct (List.filter _ _) as [|d rest] eqn:Hf; [discriminate|].
    intros [= <-]. right. apply in_map.
    assert (Hd : In d (d :: rest)) by now left.
      rewrite <- Hf in Hd. now apply filter_In in Hd as [Hd _].
  - destruct (extractDates (matched w)) as [|d ds] eqn:Hw.
    + destruct (List.filter _ _) as [|d rest] eqn:Hf; [discriminate|].
      intros [= <-]. right. apply in_map.
      assert (Hd : In d (d :: rest)) by now left.
      rewrite <- Hf in Hd. now apply filter_In in Hd as [Hd _].
    + intros [= <-]. left. exists w. split; [reflexivity|].
      rewrite Hw. now left.
Qed.


End Parsing.

Lemma findMode_In l m : findMode l = Some m -> In m l.
Proof.
  unfold findMode.
  destruct (findMode_loop_invariant l) as [_ _ Hmode].
  destruct (decide (1 < maxFreq (findMode_loop l))) as [Hgt|]; [|discriminate].
  intros Hm. rewrite Hm in Hmode.
  apply (count_occ_In N.eq_dec). lia.
Qed.

Lemma found_amounts_in_range email a :
  In a (found_amounts email) -> in_range a = true.
Proof.
  unfold found_amounts. rewrite in_flat_map.
  intros (pattern & _ & Ha). apply list_elem_of_In in Ha.
  unfold pattern_amounts in Ha. rewrite list_elem_of_omap in Ha.
  destruct Ha as (m & _ & Hm).
  destruct (parseFloat _) as [a'|]; [|discriminate].
  destruct (in_range a') eqn:Hr; [|discriminate].
  now injection Hm as <-.
Qed.

Lemma sorted_In amounts a : In a (sort_ascending amounts) <-> In a amounts.
Proof.
  split; apply Permutation_in; [|symmetry]; apply sort_ascending_perm.
Qed.

(** [extractAmount] returns nothing exactly when no pattern finds an
    in-range amount, and otherwise one of the amounts found in the
    content, above 0 and below 10000: never a value computed from
    them. *)
Theorem extractAmount_is_found (email : Email) :
  (extractAmount email = None <-> found_amounts email = [])
  /\ forall a, extractAmount email = Some a ->
               In a (found_amounts email) /\ (0 < a < 1000000)%N.
Proof.
  assert (Hsome : found_amounts email <> [] ->
                  exists a, extractAmount email = Some a
                            /\ In a (found_amounts email)).
  { unfold extractAmount. intros Hne.
    destruct (found_amounts email) as [|x l] eqn:E; [contradiction|].
    rewrite <- E in *. clear x l E.
    set (sorted := sort_ascending (found_amounts email)).
    assert (Hsorted : sorted <> []).
    { intros Hnil. apply Hne, Permutation_nil.
      rewrite <- Hnil. apply sort_ascending_perm. }
    assert (Hmiddle : exists a, sorted !! (length sorted / 2) = Some a
                                /\ In a (found_amounts email)).
    { destruct (lookup_lt_is_Some_2 sorted (length sorted / 2)) as [a Ha].
      - apply Nat.div_lt; [|lia]. destruct sorted; [contradiction|simpl; lia].
      - exists a. split; [exact Ha|].
        apply sorted_In, list_elem_of_In. eapply list_elem_of_lookup_2, Ha. }
    assert (Hrest : exists a,
               match findMode sorted with
               | Some m => if (m =? 0)%N then sorted !! (length sorted / 2) else Some m
               | None => sorted !! (length sorted / 2)
               end = Some a /\ In a (found_amounts email)).
    { destruct (findMode sorted) as [m|] eqn:Hm; [|exact Hmiddle].
      destruct (m =? 0)%N; [exact Hmiddle|].
      exists m. split; [reflexivity|]. apply sorted_In, findMode_In, Hm. }
    destruct (unique sorted) as [|u [|v w]] eqn:Hu; try exact Hrest.
    exists u. split; [reflexivity|].
    apply sorted_In, list_elem_of_In, (proj1 (unique_elem_of sorted u)).
    rewrite Hu. left. }
  split.
  - split.
    + intros Hnone. destruct (found_amounts email) as [|x l] eqn:E; [reflexivity|].
      destruct Hsome as (a & Ha & _); [discriminate|]. congruence.
    + intros E. unfold extractAmount. now rewrite E.
  - intros a Ha.
    destruct (found_amounts email) as [|x l] eqn:E.
    + unfold extractAmount in Ha. rewrite E in Ha. discriminate Ha.
    + destruct Hsome as (a' & Ha' & Hin); [discriminate|].
      assert (a' = a) as -> by congruence.
      split; [exact Hin|].
      rewrite <- E in Hin. apply found_amounts_in_range in Hin.
      unfold in_range in Hin. apply andb_prop in Hin as [H0 H1].
      apply N.ltb_lt in H0, H1. lia.
Qed.

Lemma legacy_confidence_sum email extractedData :
  calculateConfidence email extractedData
  = legacy_sum (bool_decide (type extractedData <> unknown))
               (negb (JsString.eqb (serviceName extractedData) (js "Unknown Service")))
               (bool_decide (is_Some (trialEndDate extractedData)))
               (amount_truthy (billingAmount extractedData))
               (2 <? countPatternMatches email).
Proof.
  unfold calculateConfidence.
  destruct (bool_decide _), (negb _), (bool_decide _),
           (amount_truthy _), (2 <? _); reflexivity.
Qed.

(** The module-level confidence never reaches 1: it is at most
    0.9999999999999999, the sum of all five parts in binary64.  It is 0
    or at least 0.1, and at least 0.3 when the type is known. *)
Theorem legacy_confidence_values (email : Email) (extractedData : ExtractedData) :
  let c := calculateConfidence email extractedData in
  le c 0.9999999999999999
  /\ PrimFloat.ltb c 1%float = true
  /\ (c = 0%float \/ le 0.1 c)
  /\ (type extractedData <> unknown -> le 0.3 c).
Proof.
  intros c. subst c. rewrite legacy_confidence_sum.
  destruct (bool_decide (type extractedData <> unknown)) eqn:Ht.
  - destruct (negb _), (bool_decide (is_Some _)), (amount_truthy _), (2 <? _);
      vm_compute; auto.
  - apply bool_decide_eq_false in Ht.
    destruct (negb _), (bool_decide (is_Some _)), (amount_truthy _), (2 <? _);
      vm_compute; repeat split; auto; try (intros; contradiction).
Qed.

End LegacyFacts.

(** The README example: the text around "trial ... end" gives the
    date. *)
Lemma trial_end_date_is_parsed_witness :
  (exists w, head (matches EmailParserJs.trial_end_section
                           (EmailParserJs.content_of readme_email)) = Some w
             /\ In noon_2024_12_15
                   (List.map EmailParserJs.ed_date
                      (EmailParserJs.extractDates
                         (chrono := MonthDayYear.month_day_year) (matched w))))
  \/ In noon_2024_12_15
        (List.map EmailParserJs.ed_date
           (EmailParserJs.extractDates (chrono := MonthDayYear.month_day_year)
              (EmailParserJs.content_of readme_email))).
Proof.
  apply (LegacyFacts.trial_end_date_is_parsed
           (chrono := MonthDayYear.month_day_year) new_year_2026 readme_email).
  vm_compute. reflexivity.
Defined.


Lemma extractAmount_is_found_witness :
  In 999%N (EmailParserJs.found_amounts two_prices_email) /\ (0 < 999 < 1000000)%N.
Proof.
  apply (proj2 (LegacyFacts.extractAmount_is_found two_prices_email)).
  vm_compute. reflexivity.
Defined.

Lemma parseSubscriptionEmail_errors_witness :
  exists parsed,
    EmailParserJs.parseSubscriptionEmail (chrono := MonthDayYear.month_day_year)
      new_year_2025 readme_email = EmailParserJs.ok parsed.
Proof.
  apply (proj2 (proj2 (LegacyFacts.parseSubscriptionEmail_errors
                         (chrono := MonthDayYear.month_day_year)
                         new_year_2025 readme_email))
           (js "Your free trial is ending soon")).
  - reflexivity.
  - left. vm_compute. discriminate.
Defined.

(* ================================================================== *)
(** ** [src/utils.js] *)
(* ================================================================== *)

Module UtilsFacts.

Import UtilsJs EmailParserJs.

Local Open Scope Z_scope.

Lemma to_int32_range z : - 2 ^ 31 <= to_int32 z < 2 ^ 31.
Proof.
  unfold to_int32.
  pose proof (Z.mod_pos_bound (z + 2 ^ 31) (2 ^ 32) ltac:(lia)). lia.
Qed.

Lemma to_int32_small z : - 2 ^ 31 <= z < 2 ^ 31 -> to_int32 z = z.
Proof.
  intros Hz. unfold to_int32. rewrite Z.mod_small; lia.
Qed.

Lemma to_int32_shift z k : to_int32 (z + k * 2 ^ 32) = to_int32 z.
Proof. unfold to_int32. now rewrite <- Z.add_assoc, (Z.add_comm (k * _)), Z.add_assoc, Z_mod_plus_full. Qed.

Lemma to_int32_multiple z : exists k, to_int32 z = z + k * 2 ^ 32.
Proof.
  exists (- ((z + 2 ^ 31) / 2 ^ 32)). unfold to_int32.
  pose proof (Z.div_mod (z + 2 ^ 31) (2 ^ 32) ltac:(lia)). lia.
Qed.

Lemma simpleHash_round_polynomial sum char :
  simpleHash_round (to_int32 sum) char = to_int32 (31 * sum + Z.of_N char).
Proof.
  unfold simpleHash_round, bit_and, shift_left.
  rewrite Z.land_diag, Z.shiftl_mul_pow2 by lia.
  rewrite !(to_int32_small (to_int32 _)) by apply to_int32_range.
  destruct (to_int32_multiple sum) as [k1 ->].
  destruct (to_int32_multiple ((sum + k1 * 2 ^ 32) * 2 ^ 5)) as [k2 ->].
  replace ((sum + k1 * 2 ^ 32) * 2 ^ 5 + k2 * 2 ^ 32 - (sum + k1 * 2 ^ 32)
           + Z.of_N char)
    with (31 * sum + Z.of_N char + (31 * k1 + k2) * 2 ^ 32) by lia.
  apply to_int32_shift.
Qed.

Lemma simpleHash_loop_from str sum :
  foldl simpleHash_round (to_int32 sum) str
  = to_int32 (foldl (fun acc c => 31 * acc + Z.of_N c) sum str).
Proof.
  revert sum. induction str as [|c str IH]; intros sum; [reflexivity|].
  cbn [foldl]. rewrite simpleHash_round_polynomial. apply IH.
Qed.

(** The loop of [simpleHash] computes the sum of the characters times
    powers of 31, brought into 32 bits: shifting by five and
    subtracting multiplies by 31, and overflow on the way changes
    nothing. *)
Theorem simpleHash_loop_polynomial (str : jsstring) :
  simpleHash_loop str = to_int32 (polynomial31 str).
Proof.
  unfold simpleHash_loop, polynomial31.
  change 0 with (to_int32 0) at 1. apply simpleHash_loop_from.
Qed.

Lemma digit36_spec d :
  0 <= d < 36 ->
  is_base36_digit (digit36 d) = true /\ digit36_value (digit36 d) = d.
Proof.
  intros Hd. unfold is_base36_digit, digit36_value, digit36, is_digit, is_lower.
  destruct (Z.ltb_spec d 10).
  - assert (H1 : (48 <=? Z.to_N (48 + d))%N = true) by (apply N.leb_le; lia).
    assert (H2 : (Z.to_N (48 + d) <=? 57)%N = true) by (apply N.leb_le; lia).
    rewrite H1, H2. cbn [andb orb]. split; [reflexivity|lia].
  - assert (H1 : (Z.to_N (87 + d) <=? 57)%N = false) by (apply N.leb_gt; lia).
    assert (H2 : (97 <=? Z.to_N (87 + d))%N = true) by (apply N.leb_le; lia).
    assert (H3 : (Z.to_N (87 + d) <=? 122)%N = true) by (apply N.leb_le; lia).
    rewrite H1, H2, H3, andb_false_r. cbn [andb orb]. split; [reflexivity|lia].
Qed.

Lemma digits36_spec fuel : forall n acc k,
  (1 <= k <= fuel)%nat -> 0 <= n < 36 ^ Z.of_nat k ->
  exists digits,
    digits36 fuel n acc = digits ++ acc
    /\ (1 <= length digits <= k)%nat
    /\ forallb is_base36_digit digits = true
    /\ forall value,
         foldl (fun value c => 36 * value + digit36_value c) value digits
         = value * 36 ^ Z.of_nat (length digits) + n.
Proof.
  induction fuel as [|fuel IH]; intros n acc k Hk Hn; [lia|].
  cbn [digits36].
  assert (Hmod : 0 <= n mod 36 < 36) by (apply Z.mod_pos_bound; lia).
  destruct (digit36_spec (n mod 36) Hmod) as [Hdigit Hvalue].
  pose proof (Z.div_mod n 36 ltac:(lia)) as Hdiv.
  destruct (Z.eqb_spec (n / 36) 0) as [Hzero|Hpos].
  - exists [digit36 (n mod 36)]. split; [reflexivity|].
    split; [cbn [length]; lia|]. split; [cbn [forallb]; now rewrite Hdigit|].
    intros value. cbn [foldl length]. rewrite Hvalue. lia.
  - assert (Hquot : 0 < n / 36).
    { pose proof (Z.div_pos n 36 ltac:(lia) ltac:(lia)). lia. }
    assert (Hk2 : (2 <= k)%nat).
    { destruct k as [|[|k]]; [lia| |lia]. change (36 ^ Z.of_nat 1) with 36 in Hn.
      rewrite Z.div_small in Hquot; lia. }
    destruct (IH (n / 36) (digit36 (n mod 36) :: acc) (k - 1)%nat)
      as (digits & Heq & Hlen & Hall & Hfold).
    + lia.
    + split; [lia|]. apply Z.div_lt_upper_bound; [lia|].
      replace (Z.of_nat k) with (Z.succ (Z.of_nat (k - 1))) in Hn by lia.
      rewrite Z.pow_succ_r in Hn by lia. lia.
    + exists (digits ++ [digit36 (n mod 36)]). split.
      { rewrite Heq. now rewrite <- app_assoc. }
      split; [rewrite length_app; cbn [length]; lia|].
      split.
      { rewrite forallb_app, Hall. cbn [forallb]. now rewrite Hdigit. }
      intros value. rewrite foldl_app, Hfold. cbn [foldl].
      rewrite Hvalue, length_app. cbn [length].
      replace (Z.of_nat (length digits + 1)) with (Z.succ (Z.of_nat (length digits))) by lia.
      rewrite Z.pow_succ_r by lia. lia.
Qed.

(** The string [simpleHash] returns is the whole numeral in base 36 of
    the absolute value of the 32-bit sum: one to six digits [0-9a-z],
    so that taking the first eight characters cuts nothing off. *)
Theorem simpleHash_numeral (str : jsstring) :
  simpleHash str = toString36 (Z.abs (simpleHash_loop str))
  /\ (1 <= length (simpleHash str) <= 6)%nat
  /\ forallb is_base36_digit (simpleHash str) = true
  /\ parseInt36 (simpleHash str) = Z.abs (to_int32 (polynomial31 str)).
Proof.
  assert (Hloop : simpleHash_loop str = to_int32 (polynomial31 str)).
  { unfold simpleHash_loop, polynomial31.
    change 0 with (to_int32 0) at 1. apply simpleHash_loop_from. }
  pose proof (to_int32_range (polynomial31 str)) as Hrange.
  rewrite <- Hloop in *.
  unfold simpleHash, toString36, parseInt36.
  destruct (digits36_spec 11 (Z.abs (simpleHash_loop str)) [] 6)
    as (digits & Heq & Hlen & Hall & Hfold).
  - lia.
  - change (36 ^ Z.of_nat 6) with 2176782336. lia.
  - rewrite Heq, app_nil_r, take_ge by lia.
    split; [reflexivity|]. split; [exact Hlen|]. split; [exact Hall|].
    rewrite Hfold. lia.
Qed.

(** [detectBillingCycle] always answers with one of four cycles, each a
    value of the subscription schema. *)
Theorem detectBillingCycle_in_schema (emailContent : jsstring) :
  In (detectBillingCycle emailContent) detected_cycles
  /\ In (detectBillingCycle emailContent) Validations.billingCycle_enum.
Proof.
  assert (Hincl : forall cycle, In cycle detected_cycles ->
                                In cycle Validations.billingCycle_enum).
  { intros cycle [<-|[<-|[<-|[<-|[]]]]].
    - left. reflexivity.
    - do 3 right. left. reflexivity.
    - right. left. reflexivity.
    - do 4 right. left. reflexivity. }
  assert (Hin : In (detectBillingCycle emailContent) detected_cycles).
  { unfold detectBillingCycle.
    destruct (List.find _ cycle_table) as [[cycle pattern]|] eqn:Hfind;
      [|left; reflexivity].
    apply find_some in Hfind as [Hfound _].
    apply (in_map fst) in Hfound. exact Hfound. }
  split; [exact Hin|apply Hincl, Hin].
Qed.

(** The monthly pattern is tried first and matches anywhere: a content
    with "month" in it is monthly whatever else it says, so "every 3
    months" is never quarterly. *)
Theorem month_is_always_monthly (before after : jsstring) :
  detectBillingCycle (before ++ js "month" ++ after) = js "monthly".
Proof.
  unfold detectBillingCycle, cycle_table. cbn [List.find].
  rewrite RegexFacts.test_extend; [reflexivity| |]; vm_compute; reflexivity.
Qed.

Lemma falsy_false field : falsy field = false -> exists c s, field = Some (c :: s).
Proof. destruct field as [[|c s]|]; try discriminate. eauto. Qed.

Section Validated.

Context `{chrono : Chrono.DateParser}.

Lemma parseSubscriptionEmail_with_subject now email :
  falsy (subject email) = false ->
  exists parsed, parseSubscriptionEmail now email = ok parsed.
Proof.
  intros Hs. destruct (falsy_false _ Hs) as (c & s & Hsome).
  unfold parseSubscriptionEmail. rewrite Hs. cbn [andb].
  destruct (LegacyFacts.extractServiceName_cases email) as [[name ->]|[_ Hnone]].
  - unfold bind, ok. eauto.
  - congruence.
Qed.

(** [validateEmail] accepts an email exactly when it reports no error,
    and it reports at most one.  An accepted email has its three fields
    and an address the pattern matches, and [parseSubscriptionEmail]
    does not throw on it. *)
Theorem validateEmail_accepts (email : Email) :
  (isValid (validateEmail email) = true <-> errors (validateEmail email) = [])
  /\ (length (errors (validateEmail email)) <= 1)%nat
  /\ (isValid (validateEmail email) = true ->
      falsy (subject email) = false /\ falsy (body email) = false
      /\ falsy (from email) = false
      /\ test emailRegex (str (from email)) = true
      /\ forall now, exists parsed, parseSubscriptionEmail now email = ok parsed).
Proof.
  unfold validateEmail. cbn [List.filter fmap list_fmap fst].
  destruct (falsy (subject email)) eqn:Hs, (falsy (body email)) eqn:Hb,
           (falsy (from email)) eqn:Hf; cbn [fmap list_fmap fst isValid errors length];
    try (split; [split; discriminate|]; split; [lia|discriminate]).
  destruct (test emailRegex (str (from email))) eqn:Ht; cbn [isValid errors length].
  - split; [split; reflexivity|]. split; [lia|]. intros _.
    repeat (split; [reflexivity|]).
    intros now. now apply parseSubscriptionEmail_with_subject.
  - split; [split; discriminate|]. split; [lia|discriminate].
Qed.

End Validated.

End UtilsFacts.

Lemma validateEmail_accepts_witness :
  EmailParserJs.falsy (EmailParserJs.subject readme_email) = false
  /\ EmailParserJs.falsy (EmailParserJs.body readme_email) = false
  /\ EmailParserJs.falsy (EmailParserJs.from readme_email) = false
  /\ test UtilsJs.emailRegex (EmailParserJs.str (EmailParserJs.from readme_email)) = true
  /\ forall now, exists parsed,
       EmailParserJs.parseSubscriptionEmail (chrono := MonthDayYear.month_day_year)
         now readme_email = EmailParserJs.ok parsed.
Proof.
  apply (proj2 (proj2 (UtilsFacts.validateEmail_accepts
                         (chrono := MonthDayYear.month_day_year) readme_email))).
  vm_compute. reflexivity.
Defined.

Lemma legacy_confidence_values_witness :
  le 0.3 (EmailParserJs.calculateConfidence readme_email
            {| EmailParserJs.type := EmailParserJs.trialEnd;
               EmailParserJs.serviceName := js "Netflix";
               EmailParserJs.trialEndDate := None;
               EmailParserJs.billingAmount := None |}).
Proof.
  apply (LegacyFacts.legacy_confidence_values readme_email).
  discriminate.
Defined.

(* ================================================================== *)
(** ** The billing cycle and its part of the confidence *)
(* ================================================================== *)

Module CycleFacts.

Import EmailSubscriptionParser.

Lemma test_test_from p s : test p s = test_from (ignoreCase p) (ast p) 0 s.
Proof.
  unfold test, search. generalize 0%nat.
  induction s as [|c s IH]; intros i; cbn [search_from test_from];
    unfold match_at, found;
    destruct (run (ignoreCase p) (ast p) _) as [|st sts]; cbn [orb];
    try reflexivity.
  apply IH.
Qed.

Lemma found_Or ic r1 r2 i s :
  found ic (Or r1 r2) i s = found ic r1 i s || found ic r2 i s.
Proof.
  unfold found. cbn [run]. now destruct (run ic r1 _).
Qed.

Lemma test_from_Or ic r1 r2 s : forall i,
  test_from ic (Or r1 r2) i s = test_from ic r1 i s || test_from ic r2 i s.
Proof.
  induction s as [|c s IH]; intros i; cbn [test_from]; rewrite found_Or.
  - now rewrite !orb_false_r.
  - rewrite IH.
    destruct (found ic r1 i (c :: s)), (found ic r2 i (c :: s)),
             (test_from ic r1 (S i) s); reflexivity.
Qed.

Lemma test_from_Never ic s : forall i, test_from ic Never i s = false.
Proof. induction s as [|c s IH]; intros i; cbn [test_from]; [reflexivity|apply IH]. Qed.

Lemma test_from_alternation ic rs i s :
  test_from ic (alternation rs) i s = existsb (fun r => test_from ic r i s) rs.
Proof.
  induction rs as [|r rs IH]; [apply test_from_Never|].
  destruct rs as [|r' rs].
  - cbn [alternation existsb]. now rewrite orb_false_r.
  - change (alternation (r :: r' :: rs)) with (Or r (alternation (r' :: rs))).
    rewrite test_from_Or, IH. reflexivity.
Qed.

(** A pattern that is the alternation of others matches a string exactly
    when one of them does. *)
Lemma test_alternation p ps s :
  ast p = alternation (List.map ast ps) ->
  Forall (fun q => ignoreCase q = ignoreCase p) ps ->
  test p s = existsb (fun q => test q s) ps.
Proof.
  intros Hast Hcase. rewrite test_test_from, Hast, test_from_alternation.
  clear Hast. induction Hcase as [|q ps Hq _ IH]; [reflexivity|].
  cbn [List.map existsb]. now rewrite IH, (test_test_from q), Hq.
Qed.

Lemma find_existsb {A} (f : A -> bool) l : is_Some (List.find f l) <-> existsb f l = true.
Proof.
  induction l as [|x l IH]; cbn [List.find existsb].
  - split; [intros [y Hy]; discriminate|discriminate].
  - destruct (f x); cbn [orb]; [split; eauto|exact IH].
Qed.

Section Cycle.

Context `{chrono : Chrono.DateParser}.

(** The confidence gets its tenth for a billing cycle exactly when
    [extractSubscriptionData] gives the detection a billing cycle: the
    pattern of the scorer is the alternation of the cycle patterns. *)
Theorem cycle_scored_iff_extracted (now : timestamp) (content : jsstring) :
  test cycle_mentioned content = true
  <-> is_Some (p_billingCycle (extractSubscriptionData now content)).
Proof.
  unfold extractSubscriptionData. cbn [p_billingCycle].
  rewrite fmap_is_Some, find_existsb.
  rewrite (test_alternation cycle_mentioned cyclePatterns); [reflexivity| |].
  - vm_compute. reflexivity.
  - repeat constructor.
Qed.

End Cycle.

End CycleFacts.
